(** * Alumnium MCP server: registry, lifecycle and dispatch

    A shallow embedding of [alumnium/mcp/server.py].  The module-level
    dictionaries [_drivers] and [_areas] are the state; the Selenium/Appium
    drivers, the [Alumni] engine, [uuid.uuid4] and the environment are the
    outside world, whose answers are read from an [oracle] and whose
    invocations are logged, in program order, in a trace of [event]s.
    [list_tools], [call_tool] and the handlers are the functions the file
    defines; the wrappers that the decorators of the MCP library install
    around the first two, and the server loop of [run], are library code
    and are not part of the embedding. *)

From Stdlib Require Import String Ascii List.
From stdpp Require Import base option strings list gmap fin_maps.

Local Open Scope string_scope.
Local Open Scope list_scope.

(** ** Python values, objects and exceptions *)

(** Values found in the [arguments] mapping of a call.  The tool schemas
    declare strings and booleans; [VNone] is Python's [None].  Numbers,
    arrays and objects, which no schema admits, are left out. *)
Inductive pyval : Type :=
  | VNone
  | VBool (b : bool)
  | VStr (s : string).

Global Instance pyval_eq_dec : EqDecision pyval.
Proof. solve_decision. Defined.

(** [str(v)], as an f-string renders a value. *)
Definition py_str (v : pyval) : string :=
  match v with
  | VNone => "None"
  | VBool true => "True"
  | VBool false => "False"
  | VStr s => s
  end.

(** Truth value of [v] in [if v:]. *)
Definition py_truthy (v : pyval) : bool :=
  match v with
  | VNone => false
  | VBool b => b
  | VStr EmptyString => false
  | VStr (String _ _) => true
  end.

(** The line feed written [\n] in the source. *)
Definition nl : string := String (ascii_of_nat 10) EmptyString.

(** Identity of a Python object. *)
Definition obj : Type := nat.

(** An [Alumni] instance: its own identity and the identity of the wrapped
    driver it exposes as [al.driver]. *)
Record Alumni : Type := mkAlumni { al_obj : obj; al_driver : obj }.

(** An [Area] instance: its own identity and its [area.driver]. *)
Record Area : Type := mkArea { area_obj : obj; area_driver : obj }.

Global Instance Alumni_eq_dec : EqDecision Alumni.
Proof. solve_decision. Defined.
Global Instance Area_eq_dec : EqDecision Area.
Proof. solve_decision. Defined.

(** Exception classes.  The five named ones are the builtins the handlers
    raise themselves; each derives from [Exception].  [OtherError] is any
    further class that derives from [Exception] without deriving from one of
    the five (selenium's [WebDriverException], [TimeoutError], ...);
    [BaseOnly] is a class that derives from [BaseException] but not from
    [Exception] ([asyncio.CancelledError], [KeyboardInterrupt],
    [SystemExit], [GeneratorExit]); [Subclass base name] is a class declared
    [class name(base)]. *)
Inductive exc_class : Type :=
  | KeyError
  | ValueError
  | NotImplementedError
  | AssertionError
  | AttributeError
  | OtherError (name : string)
  | BaseOnly (name : string)
  | Subclass (base : exc_class) (name : string).

Global Instance exc_class_eq_dec : EqDecision exc_class.
Proof. solve_decision. Defined.

(** [issubclass(c, base)]: [c] is [base] or is declared, through any
    number of steps, from it. *)
Fixpoint issubclass (c base : exc_class) : bool :=
  bool_decide (c = base) ||
  match c with
  | Subclass b _ => issubclass b base
  | _ => false
  end.

(** [issubclass(c, Exception)]. *)
Fixpoint issubclass_Exception (c : exc_class) : bool :=
  match c with
  | BaseOnly _ => false
  | Subclass b _ => issubclass_Exception b
  | _ => true
  end.

(** An exception object: its class and [str(e)]. *)
Record exn : Type := mkExn { exc_kind : exc_class; exc_str : string }.

Global Instance exn_eq_dec : EqDecision exn.
Proof. solve_decision. Defined.

(** [repr(v)]; for the strings met here (argument names and uuids, none
    of which holds a quote or a backslash) the text between single
    quotes. *)
Definition py_repr (v : pyval) : string :=
  match v with
  | VStr s => "'" +:+ s +:+ "'"
  | _ => py_str v
  end.

(** [KeyError(k)] as raised by a subscript or a [del] on a missing key;
    [str] of a [KeyError] is the [repr] of the key. *)
Definition key_error (k : pyval) : exn := mkExn KeyError (py_repr k).

Inductive outcome (A : Type) : Type :=
  | Ret (a : A)
  | Raise (e : exn).
Arguments Ret {A} a.
Arguments Raise {A} e.

(** ** Insertion-ordered dictionaries *)

(** [l[k]] on a list of items: the value of the first item with key [k]. *)
Fixpoint items_get {V} (k : string) (l : list (string * V)) : option V :=
  match l with
  | [] => None
  | kv :: l' => if decide (kv.1 = k) then Some kv.2 else items_get k l'
  end.

(** [d[k] = v] on the items: a key already present keeps its place and
    takes the new value, a new key goes to the end. *)
Fixpoint items_set {V} (k : string) (v : V) (l : list (string * V))
  : list (string * V) :=
  match l with
  | [] => [(k, v)]
  | kv :: l' => if decide (kv.1 = k) then (k, v) :: l' else kv :: items_set k v l'
  end.

(** [del d[k]] on the items: the others keep their order. *)
Definition items_del {V} (k : string) (l : list (string * V)) : list (string * V) :=
  filter (λ kv, kv.1 ≠ k) l.

(** No key occurs twice. *)
Definition keys_distinct {V} (l : list (string * V)) : bool :=
  bool_decide (NoDup l.*1).

(** A Python [dict] with string keys: its items in the order [items()]
    yields them, which is the order in which the keys were first inserted,
    together with the fact that no key occurs twice. *)
Record odict (V : Type) : Type := ODict {
  od_items : list (string * V);
  od_distinct : Is_true (keys_distinct od_items)
}.
Arguments ODict {V} od_items od_distinct.
Arguments od_items {V} _.
Arguments od_distinct {V} _.

(** The proof carried by a dictionary, put in a form that computes to [I]
    on a closed list. *)
Definition Is_true_canon {b : bool} : Is_true b → Is_true b :=
  match b with
  | true => λ _, I
  | false => λ H, H
  end.

Definition odict_of {V} (l : list (string * V)) (H : NoDup l.*1) : odict V :=
  ODict l (Is_true_canon (bool_decide_pack _ H)).

Lemma od_NoDup {V} (m : odict V) : NoDup (od_items m).*1.
Proof. exact (bool_decide_unpack _ (od_distinct m)). Qed.

Lemma items_set_keys {V} k (v : V) l :
  (items_set k v l).*1 = if decide (k ∈ l.*1) then l.*1 else l.*1 ++ [k].
Proof.
  induction l as [|[k' v'] l IH]; cbn [items_set fmap list_fmap fst].
  - destruct (decide (k ∈ [])) as [[]%elem_of_nil|]; done.
  - destruct (decide (k' = k)) as [->|Hk]; cbn [fmap list_fmap fst].
    + rewrite decide_True; [done|apply list_elem_of_here].
    + fold (fmap (M := list) (@fst string V)) in *. rewrite IH.
      destruct (decide (k ∈ l.*1)) as [Hin|Hin].
      * rewrite decide_True; [done|by apply list_elem_of_further].
      * rewrite decide_False; [done|].
        intros [?|?]%elem_of_cons; [by subst|done].
Qed.

Lemma items_set_NoDup {V} k (v : V) l : NoDup l.*1 → NoDup (items_set k v l).*1.
Proof.
  intros Hnd. rewrite items_set_keys. case_decide as Hk; [done|].
  apply NoDup_app. split_and!; [done| |apply NoDup_singleton].
  intros x Hx [->|[]%elem_of_nil]%elem_of_cons. done.
Qed.

Lemma items_filter_NoDup {V} (P : string * V → Prop) `{!∀ x, Decision (P x)} l :
  NoDup l.*1 → NoDup (filter P l).*1.
Proof. intros Hnd. eapply sublist_NoDup; [exact Hnd|]. apply fmap_sublist, sublist_filter. Qed.

Global Instance odict_empty {V} : Empty (odict V) := odict_of [] (NoDup_nil_2).

Global Instance odict_lookup {V} : Lookup string V (odict V) :=
  λ k m, items_get k (od_items m).

Global Instance odict_insert {V} : Insert string V (odict V) :=
  λ k v m, odict_of (items_set k v (od_items m)) (items_set_NoDup k v _ (od_NoDup m)).

Global Instance odict_delete {V} : Delete string (odict V) :=
  λ k m, odict_of (items_del k (od_items m)) (items_filter_NoDup _ _ (od_NoDup m)).

Global Instance odict_filter {V} : Filter (string * V) (odict V) :=
  λ P _ m, odict_of (filter P (od_items m)) (items_filter_NoDup P _ (od_NoDup m)).

Global Arguments odict_lookup : simpl never.
Global Arguments odict_insert : simpl never.
Global Arguments odict_delete : simpl never.
Global Arguments odict_filter : simpl never.

(** ** The registry: the two module-level dictionaries *)

(** [_areas] is iterated by [_quit_driver], so it is kept with its
    insertion order; [_drivers] is only ever indexed, tested for membership
    and deleted from, none of which depends on the order of its keys. *)
Record registry : Type := mkRegistry {
  _drivers : gmap string (Alumni * obj);
  _areas : odict Area
}.

(** The state at import time: both dictionaries empty. *)
Definition registry_init : registry := mkRegistry ∅ ∅.

(** ** The outside world *)

Record Model : Type := mkModel { provider_value : string; model_name : string }.

(** [XCUITestOptions] as filled in by [_start_driver]. *)
Record XCUITestOptions : Type := mkXCUITestOptions {
  automation_name : string;
  platform_name : string;
  device_name : string;
  platform_version : string;
  new_command_timeout : Z;
  wda_launch_timeout : Z;
  app : option string;
  bundle_id : option string
}.

Record AppiumClientConfig : Type := mkAppiumClientConfig {
  remote_server_addr : string;
  direct_connection : bool
}.

(** Calls that leave the handler, and mutations of the shared dictionaries,
    in the order the code issues them.  [EChrome] and [EAppium] stand for
    the construction of the raw driver ([Chrome(options=options)],
    [Appium(client_config=.., options=..)]); the imports that precede them
    are taken to succeed. *)
Inductive event : Type :=
  | EChrome
  | EDriverGet (driver : obj) (url : pyval)
  | EAppium (client_config : AppiumClientConfig) (options : XCUITestOptions)
  | EAlumni (driver : obj) (model : Model)
  | EUuid4
  | EAlDo (al : Alumni) (goal : pyval)
  | EAlCheck (al : Alumni) (statement vision : pyval)
  | EAlGet (al : Alumni) (data vision : pyval)
  | EAlArea (al : Alumni) (description : pyval)
  | EAreaDo (area : Area) (goal : pyval)
  | EAreaCheck (area : Area) (statement vision : pyval)
  | EAreaGet (area : Area) (data vision : pyval)
  | EAccessibilityTree (al : Alumni)
  | EAlQuit (al : Alumni)
  | EDriverQuit (driver : obj)
  | ECacheSave (al : Alumni)
  | ESetDriver (driver_id : string)
  | ESetArea (area_id : string)
  | EDelArea (area_id : string)
  | EDelDriver (driver_id : string).

(** What the outside world answers during one call: a value, or the
    exception the callee raises. *)
Record oracle : Type := mkOracle {
  o_getenv : string → option string;
  o_chrome : outcome obj;
  o_driver_get : outcome unit;
  o_appium : outcome obj;
  o_model_current : Model;
  o_alumni : outcome Alumni;
  o_uuid4 : string;
  o_al_do : outcome unit;
  o_al_check : outcome string;
  o_al_get : outcome string;
  o_al_area : outcome obj;
  o_area_do : outcome unit;
  o_area_check : outcome string;
  o_area_get : outcome string;
  o_accessibility_tree : outcome string;
  o_al_quit : outcome unit;
  o_driver_quit : outcome unit;
  o_cache_save : outcome unit
}.

(** ** A state, trace and exception monad *)

Definition M (A : Type) : Type := registry → outcome A * registry * list event.

Global Instance M_ret : MRet M := λ A a r, (Ret a, r, []).

Global Instance M_bind : MBind M := λ A B f m r,
  match m r with
  | (Ret a, r1, t1) =>
      match f a r1 with
      | (res, r2, t2) => (res, r2, t1 ++ t2)
      end
  | (Raise e, r1, t1) => (Raise e, r1, t1)
  end.

Definition raise {A} (e : exn) : M A := λ r, (Raise e, r, []).

(** An external call: logged, then answered by the world. *)
Definition call {A} (ev : event) (answer : outcome A) : M A :=
  λ r, (answer, r, [ev]).

(** [try: m  except <handled>: h e]. *)
Definition try_except {A} (m : M A) (handled : exn → bool) (h : exn → M A) : M A :=
  λ r,
    match m r with
    | (Ret a, r1, t1) => (Ret a, r1, t1)
    | (Raise e, r1, t1) =>
        if handled e then
          match h e r1 with
          | (res, r2, t2) => (res, r2, t1 ++ t2)
          end
        else (Raise e, r1, t1)
    end.

(** [for x in l: body x]. *)
Fixpoint for_each {A} (l : list A) (body : A → M unit) : M unit :=
  match l with
  | [] => mret tt
  | x :: l' => body x ;; for_each l' body
  end.

(** *** Dictionary primitives *)

Abbreviation arguments := (gmap string pyval).

(** [args[k]] *)
Definition subscript (args : arguments) (k : string) : M pyval :=
  match args !! k with
  | Some v => mret v
  | None => raise (key_error (VStr k))
  end.

(** [args.get(k, default)] *)
Definition args_get (args : arguments) (k : string) (dflt : pyval) : pyval :=
  match args !! k with
  | Some v => v
  | None => dflt
  end.

(** The keys of both dictionaries are the strings made by [str(uuid4())],
    so a value that is not a string is never a key. *)
Definition drivers_lookup (r : registry) (k : pyval) : option (Alumni * obj) :=
  match k with
  | VStr s => _drivers r !! s
  | _ => None
  end.

Definition areas_lookup (r : registry) (k : pyval) : option Area :=
  match k with
  | VStr s => _areas r !! s
  | _ => None
  end.

(** [_drivers[k]] after the membership test; a [KeyError] if absent. *)
Definition get_driver (k : pyval) : M (Alumni * obj) :=
  λ r, match drivers_lookup r k with
       | Some d => (Ret d, r, [])
       | None => (Raise (key_error k), r, [])
       end.

Definition get_area (k : pyval) : M Area :=
  λ r, match areas_lookup r k with
       | Some a => (Ret a, r, [])
       | None => (Raise (key_error k), r, [])
       end.

(** [k in _drivers], [k in _areas] *)
Definition in_drivers (k : pyval) : M bool :=
  λ r, (Ret (bool_decide (is_Some (drivers_lookup r k))), r, []).

Definition in_areas (k : pyval) : M bool :=
  λ r, (Ret (bool_decide (is_Some (areas_lookup r k))), r, []).

(** [_drivers[k] = v] *)
Definition set_driver (k : string) (v : Alumni * obj) : M unit :=
  λ r, (Ret tt, mkRegistry (<[k := v]> (_drivers r)) (_areas r), [ESetDriver k]).

(** [_areas[k] = v] *)
Definition set_area (k : string) (v : Area) : M unit :=
  λ r, (Ret tt, mkRegistry (_drivers r) (<[k := v]> (_areas r)), [ESetArea k]).

(** [del _areas[k]]; a [KeyError] if absent. *)
Definition del_area (k : string) : M unit :=
  λ r, match _areas r !! k with
       | Some _ => (Ret tt, mkRegistry (_drivers r) (delete k (_areas r)), [EDelArea k])
       | None => (Raise (key_error (VStr k)), r, [])
       end.

(** [del _drivers[k]]; a [KeyError] if absent. *)
Definition del_driver (k : pyval) : M unit :=
  λ r, match k with
       | VStr s =>
           match _drivers r !! s with
           | Some _ => (Ret tt, mkRegistry (delete s (_drivers r)) (_areas r), [EDelDriver s])
           | None => (Raise (key_error k), r, [])
           end
       | _ => (Raise (key_error k), r, [])
       end.

(** [_areas.items()]: the items, in insertion order. *)
Definition areas_items : M (list (string * Area)) :=
  λ r, (Ret (od_items (_areas r)), r, []).

(** ** Payloads *)

Record content : Type := mkContent { type : string; text : string }.

Definition text_payload (s : string) : list content := [mkContent "text" s].

(** ** The handlers *)

(** [s.replace(old, EmptyString)] for a non-empty [old]: every occurrence
    of [old], found left to right without overlap, is dropped.  [skip]
    counts the characters of a match still to be dropped. *)
Fixpoint str_remove_from (old : string) (skip : nat) (s : string) : string :=
  match s with
  | EmptyString => EmptyString
  | String c s' =>
      match skip with
      | S k => str_remove_from old k s'
      | O =>
          if String.prefix old s
          then str_remove_from old (String.length old - 1) s'
          else String c (str_remove_from old 0 s')
      end
  end.

Definition str_remove (old s : string) : string := str_remove_from old 0 s.

(** [os.getenv(name, fallback)] *)
Definition getenv (o : oracle) (name fallback : string) : string :=
  default fallback (o_getenv o name).

(** The [chromium] branch of [_start_driver]. *)
Definition start_chromium (o : oracle) (url : pyval) : M obj :=
  driver ← call EChrome (o_chrome o);
  (if py_truthy url then call (EDriverGet driver url) (o_driver_get o) else mret tt);;
  mret driver.

(** The [ios] branch of [_start_driver]. *)
Definition start_ios (o : oracle) (url : pyval) : M obj :=
  let options := mkXCUITestOptions "XCUITest" "iOS"
                   (getenv o "ALUMNIUM_IOS_DEVICE_NAME" "iPhone 16")
                   (getenv o "ALUMNIUM_IOS_PLATFORM_VERSION" "18.4")
                   300%Z 90000%Z None None in
  options ←
    (if py_truthy url then
       match url with
       | VStr s =>
           mret (mkXCUITestOptions (automation_name options) (platform_name options)
                   (device_name options) (platform_version options)
                   (new_command_timeout options) (wda_launch_timeout options)
                   (Some (str_remove "file://" s)) None)
       | _ => raise (mkExn AttributeError "'bool' object has no attribute 'replace'")
       end
     else
       mret (mkXCUITestOptions (automation_name options) (platform_name options)
               (device_name options) (platform_version options)
               (new_command_timeout options) (wda_launch_timeout options)
               None (Some "com.apple.mobilesafari")));
  let appium_server := getenv o "ALUMNIUM_APPIUM_SERVER" "http://localhost:4723" in
  let client_config := mkAppiumClientConfig appium_server true in
  call (EAppium client_config options) (o_appium o).

Definition _start_driver (o : oracle) (args : arguments) : M (list content) :=
  platform ← subscript args "platform";
  let url := args_get args "url" VNone in
  driver ←
    (if bool_decide (platform = VStr "chromium") then start_chromium o url
     else if bool_decide (platform = VStr "ios") then start_ios o url
     else if bool_decide (platform = VStr "android") then
       raise (mkExn NotImplementedError
                ("Platform " +:+ py_str platform +:+ " requires Appium setup. Not yet implemented."))
     else raise (mkExn ValueError ("Unsupported platform: " +:+ py_str platform)));
  let model := o_model_current o in
  al ← call (EAlumni driver model) (o_alumni o);
  driver_id ← call EUuid4 (Ret (o_uuid4 o));
  set_driver driver_id (al, driver);;
  mret (text_payload
          ("Driver started successfully. driver_id: " +:+ driver_id +:+ nl +:+
           "Platform: " +:+ py_str platform +:+ nl +:+
           "Model: " +:+ provider_value model +:+ "/" +:+ model_name model)).

Definition _alumnium_do (o : oracle) (args : arguments) : M (list content) :=
  driver_id ← subscript args "driver_id";
  goal ← subscript args "goal";
  known ← in_drivers driver_id;
  (if negb known then
     raise (mkExn ValueError
              ("Driver " +:+ py_str driver_id +:+ " not found. Call alumnium_start_driver first."))
   else mret tt);;
  '(al, _) ← get_driver driver_id;
  call (EAlDo al goal) (o_al_do o);;
  mret (text_payload ("Successfully executed: " +:+ py_str goal)).

(** [except AssertionError]: the clause matches an instance of the class
    or of a class derived from it. *)
Definition is_AssertionError (e : exn) : bool :=
  issubclass (exc_kind e) AssertionError.

Definition _alumnium_check (o : oracle) (args : arguments) : M (list content) :=
  driver_id ← subscript args "driver_id";
  statement ← subscript args "statement";
  let vision := args_get args "vision" (VBool false) in
  known ← in_drivers driver_id;
  (if negb known then
     raise (mkExn ValueError ("Driver " +:+ py_str driver_id +:+ " not found."))
   else mret tt);;
  '(al, _) ← get_driver driver_id;
  '(explanation, result) ←
    try_except
      (explanation ← call (EAlCheck al statement vision) (o_al_check o);
       mret (explanation, true))
      is_AssertionError
      (λ e, mret (exc_str e, false));
  mret (text_payload
          ("Check finished: " +:+ py_str statement +:+ nl +:+
           "Result: " +:+ py_str (VBool result) +:+ nl +:+
           "Explanation: " +:+ explanation)).

Definition _alumnium_get (o : oracle) (args : arguments) : M (list content) :=
  driver_id ← subscript args "driver_id";
  data ← subscript args "data";
  let vision := args_get args "vision" (VBool false) in
  known ← in_drivers driver_id;
  (if negb known then
     raise (mkExn ValueError ("Driver " +:+ py_str driver_id +:+ " not found."))
   else mret tt);;
  '(al, _) ← get_driver driver_id;
  result ← call (EAlGet al data vision) (o_al_get o);
  mret (text_payload ("Extracted data: " +:+ result)).

(** Modelled from the spec: [Alumni.area] belongs to the automation engine,
    which is not among the sources.  The engine derives a scoped view for
    the description and the resulting Area is tied to the identity of its
    parent: its [driver] is the [driver] of the [Alumni] instance it was
    derived from.  The world chooses the new object, or raises. *)
Definition Alumni_area (o : oracle) (al : Alumni) (description : pyval) : M Area :=
  a ← call (EAlArea al description) (o_al_area o);
  mret (mkArea a (al_driver al)).

Definition _alumnium_area (o : oracle) (args : arguments) : M (list content) :=
  driver_id ← subscript args "driver_id";
  description ← subscript args "description";
  known ← in_drivers driver_id;
  (if negb known then
     raise (mkExn ValueError ("Driver " +:+ py_str driver_id +:+ " not found."))
   else mret tt);;
  '(al, _) ← get_driver driver_id;
  area ← Alumni_area o al description;
  area_id ← call EUuid4 (Ret (o_uuid4 o));
  set_area area_id area;;
  mret (text_payload
          ("Area created successfully. area_id: " +:+ area_id +:+ nl +:+
           "Description: " +:+ py_str description)).

Definition _area_do (o : oracle) (args : arguments) : M (list content) :=
  area_id ← subscript args "area_id";
  goal ← subscript args "goal";
  known ← in_areas area_id;
  (if negb known then
     raise (mkExn ValueError
              ("Area " +:+ py_str area_id +:+ " not found. Call alumnium_area first."))
   else mret tt);;
  area ← get_area area_id;
  call (EAreaDo area goal) (o_area_do o);;
  mret (text_payload ("Successfully executed in area: " +:+ py_str goal)).

Definition _area_check (o : oracle) (args : arguments) : M (list content) :=
  area_id ← subscript args "area_id";
  statement ← subscript args "statement";
  let vision := args_get args "vision" (VBool false) in
  known ← in_areas area_id;
  (if negb known then
     raise (mkExn ValueError ("Area " +:+ py_str area_id +:+ " not found."))
   else mret tt);;
  area ← get_area area_id;
  explanation ← call (EAreaCheck area statement vision) (o_area_check o);
  mret (text_payload
          ("Check passed: " +:+ py_str statement +:+ nl +:+
           "Explanation: " +:+ explanation)).

Definition _area_get (o : oracle) (args : arguments) : M (list content) :=
  area_id ← subscript args "area_id";
  data ← subscript args "data";
  let vision := args_get args "vision" (VBool false) in
  known ← in_areas area_id;
  (if negb known then
     raise (mkExn ValueError ("Area " +:+ py_str area_id +:+ " not found."))
   else mret tt);;
  area ← get_area area_id;
  result ← call (EAreaGet area data vision) (o_area_get o);
  mret (text_payload ("Extracted data: " +:+ result)).

Definition _get_accessibility_tree (o : oracle) (args : arguments) : M (list content) :=
  driver_id ← subscript args "driver_id";
  known ← in_drivers driver_id;
  (if negb known then
     raise (mkExn ValueError ("Driver " +:+ py_str driver_id +:+ " not found."))
   else mret tt);;
  '(al, _) ← get_driver driver_id;
  tree ← call (EAccessibilityTree al) (o_accessibility_tree o);
  mret (text_payload ("Accessibility Tree:" +:+ nl +:+ tree)).

Definition _quit_driver (o : oracle) (args : arguments) : M (list content) :=
  driver_id ← subscript args "driver_id";
  known ← in_drivers driver_id;
  (if negb known then
     raise (mkExn ValueError ("Driver " +:+ py_str driver_id +:+ " not found."))
   else mret tt);;
  '(al, driver) ← get_driver driver_id;
  call (EAlQuit al) (o_al_quit o);;
  call (EDriverQuit driver) (o_driver_quit o);;
  items ← areas_items;
  let areas_to_remove :=
    (filter (λ kv, area_driver kv.2 = al_driver al) items).*1 in
  for_each areas_to_remove del_area;;
  del_driver driver_id;;
  mret (text_payload ("Driver " +:+ py_str driver_id +:+ " closed successfully")).

Definition _save_cache (o : oracle) (args : arguments) : M (list content) :=
  driver_id ← subscript args "driver_id";
  known ← in_drivers driver_id;
  (if negb known then
     raise (mkExn ValueError ("Driver " +:+ py_str driver_id +:+ " not found."))
   else mret tt);;
  '(al, _) ← get_driver driver_id;
  call (ECacheSave al) (o_cache_save o);;
  mret (text_payload ("Cache saved successfully for driver " +:+ py_str driver_id)).

(** ** The dispatcher *)

(** The body of the [try] in [call_tool]. *)
Definition call_tool_body (o : oracle) (name : string) (args : arguments)
  : M (list content) :=
  if bool_decide (name = "start_driver") then _start_driver o args
  else if bool_decide (name = "do") then _alumnium_do o args
  else if bool_decide (name = "check") then _alumnium_check o args
  else if bool_decide (name = "get") then _alumnium_get o args
  else if bool_decide (name = "area") then _alumnium_area o args
  else if bool_decide (name = "area_do") then _area_do o args
  else if bool_decide (name = "area_check") then _area_check o args
  else if bool_decide (name = "area_get") then _area_get o args
  else if bool_decide (name = "get_accessibility_tree") then _get_accessibility_tree o args
  else if bool_decide (name = "quit_driver") then _quit_driver o args
  else if bool_decide (name = "save_cache") then _save_cache o args
  else raise (mkExn ValueError ("Unknown tool: " +:+ name)).

(** [except Exception]: the clause matches every exception but those of
    a class that derives from [BaseException] only. *)
Definition is_Exception (e : exn) : bool :=
  issubclass_Exception (exc_kind e).

(** [call_tool]: an [Exception] is caught and rendered; anything else
    leaves the function. *)
Definition call_tool (o : oracle) (name : string) (args : arguments)
  : M (list content) :=
  try_except (call_tool_body o name args) is_Exception
    (λ e, mret (text_payload ("Error: " +:+ exc_str e))).

(** ** The tool catalogue *)

Record Property : Type := mkProperty {
  prop_name : string;
  prop_type : string;
  prop_enum : option (list string);
  prop_description : option string;
  prop_default : option pyval
}.

Record InputSchema : Type := mkInputSchema {
  schema_type : string;
  properties : list Property;
  required : list string
}.

Record Tool : Type := mkTool {
  name : string;
  description : string;
  inputSchema : InputSchema
}.

Definition list_tools : list Tool := [
  mkTool "start_driver"
    "Initialize a browser driver for automated testing. Returns a driver_id for use in other calls."
    (mkInputSchema "object"
       [ mkProperty "platform" "string" (Some ["chromium"; "android"; "ios"])
           (Some "Target platform for automation") None;
         mkProperty "url" "string" None (Some "Optional initial URL to navigate to") None ]
       ["platform"]);
  mkTool "do"
    "Execute a goal using natural language (e.g., 'click login button', 'fill out the form'). Alumnium will plan and execute the necessary steps."
    (mkInputSchema "object"
       [ mkProperty "driver_id" "string" None (Some "Driver ID from alumnium_start_driver") None;
         mkProperty "goal" "string" None (Some "Natural language description of what to do") None ]
       ["driver_id"; "goal"]);
  mkTool "check"
    "Verify a statement is true about the current page. Raises error if false. Returns explanation."
    (mkInputSchema "object"
       [ mkProperty "driver_id" "string" None None None;
         mkProperty "statement" "string" None
           (Some "Statement to verify (e.g., 'page title contains Dashboard')") None;
         mkProperty "vision" "boolean" None (Some "Use screenshot for verification")
           (Some (VBool false)) ]
       ["driver_id"; "statement"]);
  mkTool "get"
    "Extract data from the page (e.g., 'user name', 'product prices', 'item count'). Returns the extracted data."
    (mkInputSchema "object"
       [ mkProperty "driver_id" "string" None None None;
         mkProperty "data" "string" None (Some "Description of data to extract") None;
         mkProperty "vision" "boolean" None (Some "Use screenshot for extraction")
           (Some (VBool false)) ]
       ["driver_id"; "data"]);
  mkTool "area"
    "Create a scoped area for focused operations (e.g., 'navigation sidebar', 'product grid'). Returns area_id for use with area_* tools."
    (mkInputSchema "object"
       [ mkProperty "driver_id" "string" None None None;
         mkProperty "description" "string" None (Some "Description of the area to scope to") None ]
       ["driver_id"; "description"]);
  mkTool "area_do"
    "Execute a goal within a scoped area. Same as alumnium_do but limited to the specified area."
    (mkInputSchema "object"
       [ mkProperty "area_id" "string" None (Some "Area ID from alumnium_area") None;
         mkProperty "goal" "string" None None None ]
       ["area_id"; "goal"]);
  mkTool "area_check"
    "Verify a statement within a scoped area."
    (mkInputSchema "object"
       [ mkProperty "area_id" "string" None None None;
         mkProperty "statement" "string" None None None;
         mkProperty "vision" "boolean" None None (Some (VBool false)) ]
       ["area_id"; "statement"]);
  mkTool "area_get"
    "Extract data from a scoped area."
    (mkInputSchema "object"
       [ mkProperty "area_id" "string" None None None;
         mkProperty "data" "string" None None None;
         mkProperty "vision" "boolean" None None (Some (VBool false)) ]
       ["area_id"; "data"]);
  mkTool "get_accessibility_tree"
    "Get structured representation of current page for debugging. Useful for understanding page structure."
    (mkInputSchema "object"
       [ mkProperty "driver_id" "string" None None None ]
       ["driver_id"]);
  mkTool "quit_driver"
    "Close browser/app and cleanup driver resources."
    (mkInputSchema "object"
       [ mkProperty "driver_id" "string" None None None ]
       ["driver_id"]);
  mkTool "save_cache"
    "Save the Alumnium cache for a driver session. This persists learned interactions for future use."
    (mkInputSchema "object"
       [ mkProperty "driver_id" "string" None None None ]
       ["driver_id"])
].

(** The (name, required arguments) rows the catalogue advertises. *)
Definition catalogue_rows : list (string * list string) :=
  (λ t, (name t, required (inputSchema t))) <$> list_tools.

(** The table of section 4.3 of the specification, as it is written
    there: tool and required arguments. *)
Definition spec_catalogue : list (string * list string) := [
  ("start_driver", ["platform"]);
  ("do", ["driver_handle"; "goal"]);
  ("check", ["driver_handle"; "statement"]);
  ("get", ["driver_handle"; "data"]);
  ("area", ["driver_handle"; "description"]);
  ("area_do", ["area_handle"; "goal"]);
  ("area_check", ["area_handle"; "statement"]);
  ("area_get", ["area_handle"; "data"]);
  ("get_debug_tree", ["driver_handle"]);
  ("quit_driver", ["driver_handle"]);
  ("save_cache", ["driver_handle"])
].

(** The names the code gives to what the table calls [get_debug_tree],
    [driver_handle] and [area_handle]. *)
Definition code_tool_name (n : string) : string :=
  if bool_decide (n = "get_debug_tree") then "get_accessibility_tree" else n.

Definition code_argument_name (k : string) : string :=
  if bool_decide (k = "driver_handle") then "driver_id"
  else if bool_decide (k = "area_handle") then "area_id"
  else k.

(** The first required argument that the mapping lacks. *)
Definition first_missing (req : list string) (args : arguments) : option string :=
  List.find (λ k, bool_decide (args !! k = None)) req.

(** ** Serving a sequence of calls *)

Record request : Type := mkRequest {
  rq_oracle : oracle;
  rq_name : string;
  rq_args : arguments
}.

(** The registry left by one dispatched call. *)
Definition serve1 (r : registry) (q : request) : registry :=
  (call_tool (rq_oracle q) (rq_name q) (rq_args q) r).1.2.

(** The registry left by a sequence of calls, served one after the other. *)
Definition serve (qs : list request) (r : registry) : registry :=
  foldl serve1 r qs.

(** The identifiers [uuid4] hands out over a sequence of calls. *)
Definition uuids (qs : list request) : list string :=
  (λ q, o_uuid4 (rq_oracle q)) <$> qs.

(** An Area of the registry whose [driver] is that of the DriverSession
    registered under [h]: the test [_quit_driver] applies. *)
Definition derived_from (r : registry) (h a : string) : Prop :=
  ∃ al driver area,
    _drivers r !! h = Some (al, driver) ∧
    _areas r !! a = Some area ∧
    area_driver area = al_driver al.

(** ** Vocabulary of the statements *)

(** The success message of [_start_driver]. *)
Definition started_text (driver_id : string) (platform : pyval) (model : Model) : string :=
  "Driver started successfully. driver_id: " +:+ driver_id +:+ nl +:+
  "Platform: " +:+ py_str platform +:+ nl +:+
  "Model: " +:+ provider_value model +:+ "/" +:+ model_name model.

(** The call passes the string [x] as the required argument [key] of the
    tool [t]. *)
Definition references (t : Tool) (args : arguments) (key x : string) : Prop :=
  key ∈ required (inputSchema t) ∧ args !! key = Some (VStr x).

(** The handle argument of the call is not a key of the dictionary it is
    looked up in: [driver_id] in [_drivers], [area_id] in [_areas]. *)
Definition unknown_handle (t : Tool) (args : arguments) (r : registry) (h : string) : Prop :=
  (references t args "driver_id" h ∧ _drivers r !! h = None) ∨
  (references t args "area_id" h ∧ _areas r !! h = None).

(** The answer of a call that failed on the handle [h]: the not-found
    error text naming [h], the registry [r] it started from, and no event
    at all. *)
Definition not_found_answer (res : outcome (list content) * registry * list event)
    (r : registry) (h : string) : Prop :=
  ∃ noun hint,
    noun ∈ ["Driver"; "Area"] ∧
    res = (Ret (text_payload ("Error: " +:+ noun +:+ " " +:+ h +:+ " not found." +:+ hint)),
           r, []).

(** Every required argument of [t] is present in the mapping. *)
Definition has_required (t : Tool) (args : arguments) : Prop :=
  ∀ k, k ∈ required (inputSchema t) → is_Some (args !! k).

(** The keys [_quit_driver] collects in [areas_to_remove] for the engine
    [al]. *)
Definition areas_to_remove (r : registry) (al : Alumni) : list string :=
  (filter (λ kv : string * Area, area_driver kv.2 = al_driver al)
     (od_items (_areas r))).*1.

(** The registry a completed [_quit_driver] leaves. *)
Definition registry_after_quit (r : registry) (h : string) (al : Alumni) : registry :=
  mkRegistry (delete h (_drivers r))
    (filter (λ kv : string * Area, area_driver kv.2 ≠ al_driver al) (_areas r)).

(** The events of a completed [_quit_driver]: the engine is released, the
    raw driver is closed, the areas go in the order [_areas.items()] yields
    them, the driver entry goes last. *)
Definition quit_trace (r : registry) (h : string) (al : Alumni) (driver : obj)
  : list event :=
  [EAlQuit al; EDriverQuit driver] ++ (EDelArea <$> areas_to_remove r al) ++ [EDelDriver h].

(** The success message of [_alumnium_area]. *)
Definition area_created_text (area_id : string) (description : pyval) : string :=
  "Area created successfully. area_id: " +:+ area_id +:+ nl +:+
  "Description: " +:+ py_str description.

(** The handler [call_tool] awaits for a tool name. *)
Definition handler_of (nm : string) : option (oracle → arguments → M (list content)) :=
  if bool_decide (nm = "start_driver") then Some _start_driver
  else if bool_decide (nm = "do") then Some _alumnium_do
  else if bool_decide (nm = "check") then Some _alumnium_check
  else if bool_decide (nm = "get") then Some _alumnium_get
  else if bool_decide (nm = "area") then Some _alumnium_area
  else if bool_decide (nm = "area_do") then Some _area_do
  else if bool_decide (nm = "area_check") then Some _area_check
  else if bool_decide (nm = "area_get") then Some _area_get
  else if bool_decide (nm = "get_accessibility_tree") then Some _get_accessibility_tree
  else if bool_decide (nm = "quit_driver") then Some _quit_driver
  else if bool_decide (nm = "save_cache") then Some _save_cache
  else None.

(** What [call_tool] makes of an exception [e] that leaves its [try] body:
    the error text when [except Exception] matches, [e] itself, which then
    leaves [call_tool], when it does not. *)
Definition rendered (e : exn) : outcome (list content) :=
  if is_Exception e then Ret (text_payload ("Error: " +:+ exc_str e)) else Raise e.

(** The exception an answer of the outside world carries, if any. *)
Definition raised {A} (x : outcome A) : list exn :=
  match x with
  | Ret _ => []
  | Raise e => [e]
  end.

(** The exceptions the outside world raises during one call. *)
Definition oracle_exceptions (o : oracle) : list exn :=
  raised (o_chrome o) ++ raised (o_driver_get o) ++ raised (o_appium o) ++
  raised (o_alumni o) ++ raised (o_al_do o) ++ raised (o_al_check o) ++
  raised (o_al_get o) ++ raised (o_al_area o) ++ raised (o_area_do o) ++
  raised (o_area_check o) ++ raised (o_area_get o) ++
  raised (o_accessibility_tree o) ++ raised (o_al_quit o) ++
  raised (o_driver_quit o) ++ raised (o_cache_save o).

(** A result whose value, when there is one, is a single text content. *)
Definition textual (x : outcome (list content) * registry * list event) : Prop :=
  match x.1.1 with
  | Ret p => ∃ s, p = text_payload s
  | Raise _ => True
  end.

(** Every key of the two dictionaries is among the identifiers [uuid4]
    handed out during the calls [qs]. *)
Definition minted (qs : list request) (r : registry) : Prop :=
  ∀ k, is_Some (_drivers r !! k) ∨ is_Some (_areas r !! k) → k ∈ uuids qs.

(** What one call can do to the registry. *)
Inductive registry_step (o : oracle) (nm : string) (args : arguments)
    (r : registry) : registry → Prop :=
  | step_none : registry_step o nm args r r
  | step_start al driver :
      nm = "start_driver" →
      registry_step o nm args r
        (mkRegistry (<[o_uuid4 o := (al, driver)]> (_drivers r)) (_areas r))
  | step_area h al driver a :
      nm = "area" →
      _drivers r !! h = Some (al, driver) →
      registry_step o nm args r
        (mkRegistry (_drivers r) (<[o_uuid4 o := mkArea a (al_driver al)]> (_areas r)))
  | step_quit h al driver :
      nm = "quit_driver" →
      args !! "driver_id" = Some (VStr h) →
      _drivers r !! h = Some (al, driver) →
      registry_step o nm args r (registry_after_quit r h al).

(** ** Sample data *)

(** A world in which every external call returns normally and [uuid4]
    yields [uuid]. *)
Definition quiet_oracle (uuid : string) : oracle :=
  mkOracle (λ _, None) (Ret 1) (Ret tt) (Ret 2)
    (mkModel "anthropic" "claude-haiku-4-5-20251001") (Ret (mkAlumni 3 4)) uuid
    (Ret tt) (Ret "ok") (Ret "42") (Ret 5)
    (Ret tt) (Ret "ok") (Ret "42") (Ret "tree")
    (Ret tt) (Ret tt) (Ret tt).

(** A world in which every external call raises [e]. *)
Definition failing_oracle (uuid : string) (e : exn) : oracle :=
  mkOracle (λ _, None) (Raise e) (Raise e) (Raise e)
    (mkModel "anthropic" "claude-haiku-4-5-20251001") (Raise e) uuid
    (Raise e) (Raise e) (Raise e) (Raise e)
    (Raise e) (Raise e) (Raise e) (Raise e)
    (Raise e) (Raise e) (Raise e).


(** One driver session [d1] with an area [a1] derived from it, and an
    area [a2] of another engine, created in this order. *)
Definition sample_registry : registry :=
  mkRegistry {["d1" := (mkAlumni 3 4, 1)]}
    (<["a2" := mkArea 6 9]> (<["a1" := mkArea 5 4]> ∅)).

Definition tool_do : Tool :=
  mkTool "do"
    "Execute a goal using natural language (e.g., 'click login button', 'fill out the form'). Alumnium will plan and execute the necessary steps."
    (mkInputSchema "object"
       [ mkProperty "driver_id" "string" None (Some "Driver ID from alumnium_start_driver") None;
         mkProperty "goal" "string" None (Some "Natural language description of what to do") None ]
       ["driver_id"; "goal"]).

Definition tool_area_check : Tool :=
  mkTool "area_check"
    "Verify a statement within a scoped area."
    (mkInputSchema "object"
       [ mkProperty "area_id" "string" None None None;
         mkProperty "statement" "string" None None None;
         mkProperty "vision" "boolean" None None (Some (VBool false)) ]
       ["area_id"; "statement"]).

(** A server that has served one [start_driver] call. *)
Definition sample_run : list request :=
  [mkRequest (quiet_oracle "u1") "start_driver" {["platform" := VStr "chromium"]}].

(** The registry after a [start_driver] call that returned the handle
    [u1] and an [area] call on [u1] that returned the handle [u2]. *)
Definition sample_session : registry :=
  serve [ mkRequest (quiet_oracle "u1") "start_driver" {["platform" := VStr "chromium"]};
          mkRequest (quiet_oracle "u2") "area"
            {["driver_id" := VStr "u1"; "description" := VStr "header navigation"]} ]
    registry_init.

(** ** Further vocabulary *)

(** The tools whose handlers only read the registry. *)
Definition read_only_tools : list string :=
  ["do"; "check"; "get"; "area_do"; "area_check"; "area_get";
   "get_accessibility_tree"; "save_cache"].

(** Events that write to [_drivers] or [_areas]. *)
Definition registry_event (ev : event) : bool :=
  match ev with
  | ESetDriver _ | ESetArea _ | EDelArea _ | EDelDriver _ => true
  | _ => false
  end.

(** Events that release an engine or close a raw driver. *)
Definition closing_event (ev : event) : bool :=
  match ev with
  | EAlQuit _ | EDriverQuit _ => true
  | _ => false
  end.

(** The argument names a tool declares in its schema. *)
Definition declared (t : Tool) : list string :=
  prop_name <$> properties (inputSchema t).

(** [old] starts at no position of [s]. *)
Fixpoint no_occurrence (old s : string) : bool :=
  match s with
  | EmptyString => true
  | String _ s' => negb (String.prefix old s) && no_occurrence old s'
  end.

(** A handler that raised has left the registry alone. *)
Definition raise_is_clean (x : outcome (list content) * registry * list event)
    (r : registry) : Prop :=
  match x with
  | (Raise _, r', t) => r' = r ∧ Forall (λ ev, registry_event ev = false) t
  | (Ret _, _, _) => True
  end.

(** An exception that leaves a handler was raised by the handler itself,
    and is then an [Exception], or was raised by the outside world. *)
Definition own_or_world (o : oracle)
    (x : outcome (list content) * registry * list event) : Prop :=
  match x.1.1 with
  | Ret _ => True
  | Raise e => is_Exception e = true ∨ e ∈ oracle_exceptions o
  end.

(** The tools that declare the optional [vision] argument. *)
Definition vision_tools : list string := ["check"; "get"; "area_check"; "area_get"].

(** The options [_start_driver] builds for iOS, up to the application. *)
Definition xcuitest_options (o : oracle) (app bundle_id : option string)
  : XCUITestOptions :=
  mkXCUITestOptions "XCUITest" "iOS"
    (getenv o "ALUMNIUM_IOS_DEVICE_NAME" "iPhone 16")
    (getenv o "ALUMNIUM_IOS_PLATFORM_VERSION" "18.4")
    300%Z 90000%Z app bundle_id.

(** The client configuration [_start_driver] builds for Appium. *)
Definition appium_client_config (o : oracle) : AppiumClientConfig :=
  mkAppiumClientConfig (getenv o "ALUMNIUM_APPIUM_SERVER" "http://localhost:4723") true.

(** ** [main] *)

(** The effect of [main] on [os.environ] before the server is started:
    [ALUMNIUM_MODEL] is set to the default model when it is not a key. *)
Definition main (environ : gmap string string) : gmap string string :=
  if bool_decide (is_Some (environ !! "ALUMNIUM_MODEL")) then environ
  else <["ALUMNIUM_MODEL" := "anthropic/claude-haiku-4-5-20251001"]> environ.

(** * Properties *)

(** ** Insertion-ordered dictionaries *)

Section odict_lemmas.
Context {V : Type}.
Implicit Types (m : odict V) (l : list (string * V)) (k : string) (v : V).

(** Two dictionaries with the same items are the same dictionary. *)
Lemma odict_eq m1 m2 : od_items m1 = od_items m2 → m1 = m2.
Proof.
  destruct m1 as [l1 H1], m2 as [l2 H2]. simpl. intros ->.
  f_equal. apply proof_irrel.
Qed.

Lemma od_items_insert m k v : od_items (<[k := v]> m) = items_set k v (od_items m).
Proof. reflexivity. Qed.

Lemma od_items_delete m k : od_items (delete k m) = items_del k (od_items m).
Proof. reflexivity. Qed.

Lemma od_items_filter (P : string * V → Prop) `{!∀ x, Decision (P x)} m :
  od_items (filter P m) = filter P (od_items m).
Proof. reflexivity. Qed.

Lemma items_get_None l k : items_get k l = None ↔ k ∉ l.*1.
Proof.
  induction l as [|[k' v'] l IH]; simpl.
  - split; [intros _; apply not_elem_of_nil|done].
  - case_decide as Hk; simpl in *.
    + subst. split; [done|]. intros []. apply list_elem_of_here.
    + rewrite IH, not_elem_of_cons. split; [intros ?; split; [congruence|done]|by intros [_ ?]].
Qed.

Lemma items_get_Some l k v : NoDup l.*1 → items_get k l = Some v ↔ (k, v) ∈ l.
Proof.
  induction l as [|[k' v'] l IH]; simpl; intros Hnd.
  - split; [done|]. by intros ?%elem_of_nil.
  - apply NoDup_cons in Hnd as [Hk' Hnd]. case_decide as Hk; simpl in *.
    + subst. split.
      * intros [= ->]. apply list_elem_of_here.
      * intros [[= ->]|Hin]%elem_of_cons; [done|].
        exfalso. apply Hk'. apply list_elem_of_fmap. by exists (k, v).
    + rewrite IH, elem_of_cons by done. split; [by right|]. intros [[= -> ->]|?]; done.
Qed.

Lemma od_elem_of_items m k v : (k, v) ∈ od_items m ↔ m !! k = Some v.
Proof. symmetry. apply items_get_Some, od_NoDup. Qed.

Lemma od_lookup_None m k : m !! k = None ↔ k ∉ (od_items m).*1.
Proof. apply items_get_None. Qed.

Lemma od_lookup_empty k : (∅ : odict V) !! k = None.
Proof. reflexivity. Qed.

Lemma items_get_set_eq l k v : items_get k (items_set k v l) = Some v.
Proof.
  induction l as [|[k' v'] l IH]; simpl.
  - by rewrite decide_True.
  - case_decide as Hk; simpl; [by rewrite decide_True|]. by rewrite decide_False.
Qed.

Lemma items_get_set_ne l k k' v : k ≠ k' → items_get k' (items_set k v l) = items_get k' l.
Proof.
  intros Hne. induction l as [|[k1 v1] l IH]; simpl.
  - by rewrite decide_False.
  - case_decide as Hk; simpl in *.
    + subst. by rewrite !decide_False.
    + case_decide; [done|apply IH].
Qed.

Lemma od_lookup_insert_eq m k v : <[k := v]> m !! k = Some v.
Proof. apply items_get_set_eq. Qed.

Lemma od_lookup_insert_ne m k k' v : k ≠ k' → <[k := v]> m !! k' = m !! k'.
Proof. apply items_get_set_ne. Qed.

Lemma od_lookup_filter_Some (P : string * V → Prop) `{!∀ x, Decision (P x)} m k v :
  filter P m !! k = Some v ↔ m !! k = Some v ∧ P (k, v).
Proof.
  rewrite <- !od_elem_of_items, od_items_filter, list_elem_of_filter.
  split; intros [? ?]; done.
Qed.

Lemma od_lookup_filter_None (P : string * V → Prop) `{!∀ x, Decision (P x)} m k :
  filter P m !! k = None ↔ m !! k = None ∨ ∀ v, m !! k = Some v → ¬ P (k, v).
Proof.
  rewrite eq_None_not_Some. unfold is_Some. split.
  - intros Hn. destruct (m !! k) as [v|] eqn:Hl; [right|by left].
    intros v' [= <-] HP. apply Hn. exists v. by apply od_lookup_filter_Some.
  - intros [Hn|Hn] [v [Hl HP]%od_lookup_filter_Some].
    + by rewrite Hn in Hl.
    + by apply (Hn v).
Qed.

Lemma od_lookup_delete_eq m k : delete k m !! k = None.
Proof.
  apply (od_lookup_filter_None (λ kv, kv.1 ≠ k)). right. intros v _ Hne. by apply Hne.
Qed.

Lemma od_lookup_delete_ne m k k' : k ≠ k' → delete k m !! k' = m !! k'.
Proof.
  intros Hne. destruct (m !! k') as [v|] eqn:Hl.
  - apply (od_lookup_filter_Some (λ kv, kv.1 ≠ k)). split; [done|]. simpl. congruence.
  - apply (od_lookup_filter_None (λ kv, kv.1 ≠ k)). by left.
Qed.

(** Deleting, one after the other, the keys of the items that satisfy [P]
    leaves the items that do not, in their order. *)
Lemma items_del_filter (P : string * V → Prop) `{!∀ x, Decision (P x)} l :
  NoDup l.*1 →
  foldl (λ l k, items_del k l) l (filter P l).*1 = filter (λ kv, ¬ P kv) l.
Proof.
  intros Hnd.
  assert (∀ ks l', foldl (λ l k, items_del k l) l' ks = filter (λ kv, kv.1 ∉ ks) l') as Hfold.
  { induction ks as [|k ks IH]; intros l'; simpl.
    - induction l' as [|x l' IH']; [done|].
      rewrite filter_cons_True by apply not_elem_of_nil. by f_equal.
    - rewrite IH. unfold items_del. rewrite list_filter_filter.
      apply list_filter_iff. intros kv. rewrite not_elem_of_cons.
      split; intros [? ?]; done. }
  rewrite Hfold. clear Hfold.
  assert (∀ kv, kv ∈ l → kv.1 ∉ (filter P l).*1 ↔ ¬ P kv) as Hiff.
  { intros [k v] Hin. simpl. split.
    - intros Hk HP. apply Hk. apply list_elem_of_fmap. exists (k, v).
      split; [done|]. by apply list_elem_of_filter.
    - intros HP ([k' v'] & Hk & [HP' Hin']%list_elem_of_filter)%list_elem_of_fmap.
      simpl in Hk. subst k'. apply HP.
      apply (items_get_Some _ _ _ Hnd) in Hin, Hin'. rewrite Hin in Hin'. by simplify_eq. }
  revert Hiff. generalize (filter P l).*1 as ks. intros ks Hiff.
  induction l as [|x l IH]; [done|].
  apply NoDup_cons in Hnd as [_ Hnd].
  rewrite !filter_cons. destruct (decide (x.1 ∉ ks)) as [Hx|Hx].
  - rewrite decide_True by (apply Hiff; [apply list_elem_of_here|done]).
    f_equal. apply IH; [done|]. intros kv Hkv. apply Hiff. by apply list_elem_of_further.
  - rewrite decide_False by (rewrite <- Hiff; [done|apply list_elem_of_here]).
    apply IH; [done|]. intros kv Hkv. apply Hiff. by apply list_elem_of_further.
Qed.

Lemma od_items_foldl_delete m ks :
  od_items (foldl (λ m k, delete k m) m ks) = foldl (λ l k, items_del k l) (od_items m) ks.
Proof. revert m. induction ks as [|k ks IH]; intros m; [done|]. simpl. by rewrite IH. Qed.

Lemma od_foldl_delete_filter (P : string * V → Prop) `{!∀ x, Decision (P x)} m :
  foldl (λ m k, delete k m) m (filter P (od_items m)).*1 = filter (λ kv, ¬ P kv) m.
Proof.
  apply odict_eq. rewrite od_items_foldl_delete, od_items_filter.
  apply items_del_filter, od_NoDup.
Qed.
End odict_lemmas.

(** ** Proof support *)

Ltac munfold :=
  unfold call_tool,
    _start_driver, start_chromium, start_ios,
    _alumnium_do, _alumnium_check, _alumnium_get, _alumnium_area,
    _area_do, _area_check, _area_get, _get_accessibility_tree, _quit_driver, _save_cache,
    Alumni_area, subscript, in_drivers, in_areas, get_driver, get_area, areas_items,
    drivers_lookup, areas_lookup, try_except, raise, call, set_driver, set_area,
    mbind, M_bind, mret, M_ret.

(** Membership of a concrete list, and its refutation. *)
Ltac in_list :=
  first [apply list_elem_of_here | apply list_elem_of_further; in_list | assumption].

Ltac not_in_list H :=
  repeat (apply elem_of_cons in H as [H|H]; [discriminate H|]);
  by apply elem_of_nil in H.

(** Case analysis on a tool of the catalogue. *)
Ltac catalogue_cases H :=
  unfold list_tools in H;
  repeat (apply elem_of_cons in H as [->|H]);
  [.. | by apply elem_of_nil in H].

(** *** The chain of comparisons in [call_tool] *)

Section dispatch.
Context (o : oracle) (args : arguments).

Lemma body_start_driver : call_tool_body o "start_driver" args = _start_driver o args.
Proof. reflexivity. Qed.
Lemma body_do : call_tool_body o "do" args = _alumnium_do o args.
Proof. reflexivity. Qed.
Lemma body_check : call_tool_body o "check" args = _alumnium_check o args.
Proof. reflexivity. Qed.
Lemma body_get : call_tool_body o "get" args = _alumnium_get o args.
Proof. reflexivity. Qed.
Lemma body_area : call_tool_body o "area" args = _alumnium_area o args.
Proof. reflexivity. Qed.
Lemma body_area_do : call_tool_body o "area_do" args = _area_do o args.
Proof. reflexivity. Qed.
Lemma body_area_check : call_tool_body o "area_check" args = _area_check o args.
Proof. reflexivity. Qed.
Lemma body_area_get : call_tool_body o "area_get" args = _area_get o args.
Proof. reflexivity. Qed.
Lemma body_get_accessibility_tree :
  call_tool_body o "get_accessibility_tree" args = _get_accessibility_tree o args.
Proof. reflexivity. Qed.
Lemma body_quit_driver : call_tool_body o "quit_driver" args = _quit_driver o args.
Proof. reflexivity. Qed.
Lemma body_save_cache : call_tool_body o "save_cache" args = _save_cache o args.
Proof. reflexivity. Qed.

Lemma body_unknown (nm : string) :
  nm ∉ name <$> list_tools →
  call_tool_body o nm args = raise (mkExn ValueError ("Unknown tool: " +:+ nm)).
Proof.
  intros Hnm. unfold call_tool_body.
  repeat (case_bool_decide as Heq;
          [exfalso; apply Hnm; rewrite Heq; simpl; in_list|clear Heq]).
  reflexivity.
Qed.
End dispatch.

Create Rewrite HintDb dispatch.
Hint Rewrite body_start_driver body_do body_check body_get body_area body_area_do
  body_area_check body_area_get body_get_accessibility_tree body_quit_driver
  body_save_cache : dispatch.

(** [call_tool] does nothing with the mapping but pass it to the handler
    of the tool. *)
Lemma call_tool_body_handler_of o nm args :
  call_tool_body o nm args =
    match handler_of nm with
    | Some handler => handler o args
    | None => raise (mkExn ValueError ("Unknown tool: " +:+ nm))
    end.
Proof. unfold call_tool_body, handler_of. repeat case_bool_decide; reflexivity. Qed.

Lemma handler_of_catalogue t :
  t ∈ list_tools → is_Some (handler_of (name t)).
Proof. intros Ht. catalogue_cases Ht; simpl; eauto. Qed.

(** What [call_tool] makes of the outcome of its [try] body. *)
Lemma call_tool_Ret o nm args r p r' t :
  call_tool_body o nm args r = (Ret p, r', t) →
  call_tool o nm args r = (Ret p, r', t).
Proof. intros H. unfold call_tool, try_except. by rewrite H. Qed.

Lemma call_tool_Raise o nm args r e r' t :
  call_tool_body o nm args r = (Raise e, r', t) →
  call_tool o nm args r = (rendered e, r', t).
Proof.
  intros H. unfold call_tool, try_except, rendered. rewrite H.
  destruct (is_Exception e); simpl; [|done]. by rewrite app_nil_r.
Qed.

(** *** Unknown handles *)

Section unknown_handle.
Context (o : oracle) (args : arguments) (r : registry) (h : string).

Ltac not_found Hd Hx Hr :=
  etrans;
  [ apply call_tool_Raise; autorewrite with dispatch; munfold;
    rewrite ?Hd, ?Hx; simpl; rewrite ?Hr; reflexivity
  | reflexivity ].

Lemma do_not_found g :
  args !! "driver_id" = Some (VStr h) → args !! "goal" = Some g →
  _drivers r !! h = None →
  call_tool o "do" args r =
    (Ret (text_payload
            ("Error: Driver " +:+ h +:+ " not found. Call alumnium_start_driver first.")),
     r, []).
Proof. intros Hd Hx Hr. not_found Hd Hx Hr. Qed.

Lemma check_not_found s :
  args !! "driver_id" = Some (VStr h) → args !! "statement" = Some s →
  _drivers r !! h = None →
  call_tool o "check" args r =
    (Ret (text_payload ("Error: Driver " +:+ h +:+ " not found.")), r, []).
Proof. intros Hd Hx Hr. not_found Hd Hx Hr. Qed.

Lemma get_not_found d :
  args !! "driver_id" = Some (VStr h) → args !! "data" = Some d →
  _drivers r !! h = None →
  call_tool o "get" args r =
    (Ret (text_payload ("Error: Driver " +:+ h +:+ " not found.")), r, []).
Proof. intros Hd Hx Hr. not_found Hd Hx Hr. Qed.

Lemma area_not_found d :
  args !! "driver_id" = Some (VStr h) → args !! "description" = Some d →
  _drivers r !! h = None →
  call_tool o "area" args r =
    (Ret (text_payload ("Error: Driver " +:+ h +:+ " not found.")), r, []).
Proof. intros Hd Hx Hr. not_found Hd Hx Hr. Qed.

Lemma area_do_not_found g :
  args !! "area_id" = Some (VStr h) → args !! "goal" = Some g →
  _areas r !! h = None →
  call_tool o "area_do" args r =
    (Ret (text_payload ("Error: Area " +:+ h +:+ " not found. Call alumnium_area first.")),
     r, []).
Proof. intros Hd Hx Hr. not_found Hd Hx Hr. Qed.

Lemma area_check_not_found s :
  args !! "area_id" = Some (VStr h) → args !! "statement" = Some s →
  _areas r !! h = None →
  call_tool o "area_check" args r =
    (Ret (text_payload ("Error: Area " +:+ h +:+ " not found.")), r, []).
Proof. intros Hd Hx Hr. not_found Hd Hx Hr. Qed.

Lemma area_get_not_found d :
  args !! "area_id" = Some (VStr h) → args !! "data" = Some d →
  _areas r !! h = None →
  call_tool o "area_get" args r =
    (Ret (text_payload ("Error: Area " +:+ h +:+ " not found.")), r, []).
Proof. intros Hd Hx Hr. not_found Hd Hx Hr. Qed.

Lemma get_accessibility_tree_not_found :
  args !! "driver_id" = Some (VStr h) → _drivers r !! h = None →
  call_tool o "get_accessibility_tree" args r =
    (Ret (text_payload ("Error: Driver " +:+ h +:+ " not found.")), r, []).
Proof. intros Hd Hr. not_found Hd Hd Hr. Qed.

Lemma quit_driver_not_found :
  args !! "driver_id" = Some (VStr h) → _drivers r !! h = None →
  call_tool o "quit_driver" args r =
    (Ret (text_payload ("Error: Driver " +:+ h +:+ " not found.")), r, []).
Proof. intros Hd Hr. not_found Hd Hd Hr. Qed.

Lemma save_cache_not_found :
  args !! "driver_id" = Some (VStr h) → _drivers r !! h = None →
  call_tool o "save_cache" args r =
    (Ret (text_payload ("Error: Driver " +:+ h +:+ " not found.")), r, []).
Proof. intros Hd Hr. not_found Hd Hd Hr. Qed.
End unknown_handle.

Lemma not_found_dispatch o t args r h :
  t ∈ list_tools →
  has_required t args →
  unknown_handle t args r h →
  not_found_answer (call_tool o (name t) args r) r h.
Proof.
  intros Ht Hreq Hh. unfold has_required in Hreq. unfold not_found_answer.
  catalogue_cases Ht; simpl in *;
    (destruct Hh as [((Hin & Hd) & Hr)|((Hin & Hd) & Hr)]; simpl in Hin;
     [try (exfalso; not_in_list Hin) | try (exfalso; not_in_list Hin)]).
  - destruct (Hreq "goal") as [g Hg]; [in_list|].
    exists "Driver", " Call alumnium_start_driver first."; split; [in_list|].
    by erewrite do_not_found.
  - destruct (Hreq "statement") as [g Hg]; [in_list|].
    exists "Driver", EmptyString; split; [in_list|]. by erewrite check_not_found.
  - destruct (Hreq "data") as [g Hg]; [in_list|].
    exists "Driver", EmptyString; split; [in_list|]. by erewrite get_not_found.
  - destruct (Hreq "description") as [g Hg]; [in_list|].
    exists "Driver", EmptyString; split; [in_list|]. by erewrite area_not_found.
  - destruct (Hreq "goal") as [g Hg]; [in_list|].
    exists "Area", " Call alumnium_area first."; split; [in_list|].
    by erewrite area_do_not_found.
  - destruct (Hreq "statement") as [g Hg]; [in_list|].
    exists "Area", EmptyString; split; [in_list|]. by erewrite area_check_not_found.
  - destruct (Hreq "data") as [g Hg]; [in_list|].
    exists "Area", EmptyString; split; [in_list|]. by erewrite area_get_not_found.
  - exists "Driver", EmptyString; split; [in_list|].
    by erewrite get_accessibility_tree_not_found.
  - exists "Driver", EmptyString; split; [in_list|]. by erewrite quit_driver_not_found.
  - exists "Driver", EmptyString; split; [in_list|]. by erewrite save_cache_not_found.
Qed.

(** *** Missing arguments *)

Lemma first_missing_raises o t args r k :
  t ∈ list_tools →
  first_missing (required (inputSchema t)) args = Some k →
  call_tool_body o (name t) args r = (Raise (key_error (VStr k)), r, []).
Proof.
  intros Ht Hk. unfold first_missing in Hk.
  catalogue_cases Ht; simpl in Hk;
    repeat case_bool_decide; simplify_eq; simpl name;
    autorewrite with dispatch; munfold;
    repeat match goal with
           | H : ?x = None |- context [?x] => rewrite H
           | H : ?x ≠ None |- context [?x] => destruct x; [|done]
           end; reflexivity.
Qed.

(** *** The read-only handlers leave the dictionaries alone *)

(** Case analysis on an innermost scrutinee of the goal. *)
Ltac case_inner :=
  match goal with
  | |- context [match ?x with _ => _ end] =>
      lazymatch x with
      | context [match _ with _ => _ end] => fail
      | _ => destruct x eqn:?
      end
  end.

Ltac outcome_cases := simpl; repeat (case_inner; simpl).

Lemma do_registry o args r : (_alumnium_do o args r).1.2 = r.
Proof. munfold. outcome_cases; reflexivity. Qed.

Lemma check_registry o args r : (_alumnium_check o args r).1.2 = r.
Proof. munfold. outcome_cases; reflexivity. Qed.

Lemma get_registry o args r : (_alumnium_get o args r).1.2 = r.
Proof. munfold. outcome_cases; reflexivity. Qed.

Lemma area_do_registry o args r : (_area_do o args r).1.2 = r.
Proof. munfold. outcome_cases; reflexivity. Qed.

Lemma area_check_registry o args r : (_area_check o args r).1.2 = r.
Proof. munfold. outcome_cases; reflexivity. Qed.

Lemma area_get_registry o args r : (_area_get o args r).1.2 = r.
Proof. munfold. outcome_cases; reflexivity. Qed.

Lemma get_accessibility_tree_registry o args r :
  (_get_accessibility_tree o args r).1.2 = r.
Proof. munfold. outcome_cases; reflexivity. Qed.

Lemma save_cache_registry o args r : (_save_cache o args r).1.2 = r.
Proof. munfold. outcome_cases; reflexivity. Qed.

(** [call_tool] leaves the registry as its body leaves it. *)
Lemma call_tool_registry o nm args r :
  (call_tool o nm args r).1.2 = (call_tool_body o nm args r).1.2.
Proof.
  unfold call_tool, try_except.
  destruct (call_tool_body o nm args r) as [[[p|e] r'] t]; [done|].
  by destruct (is_Exception e).
Qed.

(** *** [_start_driver] *)

Lemma start_driver_outcome o args r :
  match _start_driver o args r with
  | (Ret p, r', t) =>
      ∃ platform al driver,
        args !! "platform" = Some platform ∧
        (platform = VStr "chromium" ∧ o_chrome o = Ret driver ∧
           (∃ t', t = EChrome :: t') ∨
         platform = VStr "ios" ∧ o_appium o = Ret driver ∧
           (∃ client_config options t', t = EAppium client_config options :: t')) ∧
        o_alumni o = Ret al ∧
        r' = mkRegistry (<[o_uuid4 o := (al, driver)]> (_drivers r)) (_areas r) ∧
        p = text_payload (started_text (o_uuid4 o) platform (o_model_current o))
  | (Raise e, r', t) => r' = r ∧ ∀ k, ESetDriver k ∉ t
  end.
Proof.
  munfold. outcome_cases.
  all: repeat match goal with
         | H : bool_decide _ = true |- _ => apply bool_decide_eq_true in H
         end.
  all: try (split; [reflexivity|intros k Hk; not_in_list Hk]).
  all: simplify_eq.
  all: eexists _, _, _; split_and!; eauto 10.
Qed.

(** [_start_driver] writes under the identifier [uuid4] gives without
    looking whether it is taken. *)
Lemma start_driver_writes_uuid o args r p r' t :
  _start_driver o args r = (Ret p, r', t) →
  ∃ al driver,
    r' = mkRegistry (<[o_uuid4 o := (al, driver)]> (_drivers r)) (_areas r).
Proof.
  intros H. pose proof (start_driver_outcome o args r) as Ho. rewrite H in Ho.
  destruct Ho as (? & al & driver & _ & _ & _ & -> & _). eauto.
Qed.

Lemma start_driver_android o args r :
  args !! "platform" = Some (VStr "android") →
  _start_driver o args r =
    (Raise (mkExn NotImplementedError
              "Platform android requires Appium setup. Not yet implemented."), r, []).
Proof. intros H. munfold. by rewrite H. Qed.

Lemma start_driver_unsupported o args r platform :
  args !! "platform" = Some platform →
  platform ∉ [VStr "chromium"; VStr "ios"; VStr "android"] →
  _start_driver o args r =
    (Raise (mkExn ValueError ("Unsupported platform: " +:+ py_str platform)), r, []).
Proof.
  intros H Hp. munfold. rewrite H. simpl.
  repeat (case_bool_decide as Heq; [exfalso; apply Hp; rewrite Heq; in_list|clear Heq]).
  reflexivity.
Qed.

Lemma start_driver_chrome_fails o args r e :
  args !! "platform" = Some (VStr "chromium") →
  o_chrome o = Raise e →
  _start_driver o args r = (Raise e, r, [EChrome]).
Proof. intros H He. munfold. rewrite H. simpl. by rewrite He. Qed.

Lemma start_driver_appium_fails o args r e :
  args !! "platform" = Some (VStr "ios") →
  args_get args "url" VNone ≠ VBool true →
  o_appium o = Raise e →
  ∃ client_config options,
    _start_driver o args r = (Raise e, r, [EAppium client_config options]).
Proof.
  intros H Hurl He. munfold. rewrite H. simpl. rewrite He.
  destruct (args_get args "url" VNone) as [|[]|[]]; simpl; eauto; done.
Qed.

(** *** [_quit_driver] *)

Lemma elem_of_areas_to_remove r al a :
  a ∈ areas_to_remove r al ↔
  ∃ area, _areas r !! a = Some area ∧ area_driver area = al_driver al.
Proof.
  unfold areas_to_remove. rewrite list_elem_of_fmap. split.
  - intros ([a' area] & -> & [Hp Hin]%list_elem_of_filter).
    apply od_elem_of_items in Hin. eauto.
  - intros (area & Hl & Hp). exists (a, area). split; [done|].
    apply list_elem_of_filter. split; [done|]. by apply od_elem_of_items.
Qed.

Lemma NoDup_areas_to_remove r al : NoDup (areas_to_remove r al).
Proof.
  unfold areas_to_remove.
  eapply sublist_NoDup; [apply (od_NoDup (_areas r))|].
  apply fmap_sublist, sublist_filter.
Qed.

Lemma for_each_del_area (l : list string) d (m : odict Area) :
  NoDup l →
  (∀ k, k ∈ l → is_Some (m !! k)) →
  for_each l del_area (mkRegistry d m) =
    (Ret tt, mkRegistry d (foldl (λ m k, delete k m) m l), EDelArea <$> l).
Proof.
  revert m. induction l as [|x l IH]; intros m Hnd Hin; [done|].
  apply NoDup_cons in Hnd as [Hx Hnd].
  destruct (Hin x) as [v Hv]; [in_list|].
  simpl. unfold mbind, M_bind, del_area at 1. simpl. rewrite Hv.
  rewrite IH; [done|done|].
  intros k Hk. rewrite od_lookup_delete_ne; [apply Hin; in_list|].
  intros ->. done.
Qed.

(** The deletions of [_quit_driver] leave the other areas, in their
    order. *)
Lemma foldl_delete_areas_to_remove r al :
  foldl (λ m k, delete k m) (_areas r) (areas_to_remove r al) =
  filter (λ kv : string * Area, area_driver kv.2 ≠ al_driver al) (_areas r).
Proof.
  exact (od_foldl_delete_filter
           (λ kv : string * Area, area_driver kv.2 = al_driver al) (_areas r)).
Qed.

Lemma quit_driver_completes o args r h al driver :
  args !! "driver_id" = Some (VStr h) →
  _drivers r !! h = Some (al, driver) →
  o_al_quit o = Ret tt →
  o_driver_quit o = Ret tt →
  _quit_driver o args r =
    (Ret (text_payload ("Driver " +:+ h +:+ " closed successfully")),
     registry_after_quit r h al,
     quit_trace r h al driver).
Proof.
  intros Hd Hr Hq1 Hq2. munfold. destruct r as [d m]. simpl in *.
  rewrite Hd. simpl. repeat (rewrite Hr; simpl). rewrite Hq1, Hq2. simpl.
  change ((filter _ (od_items m)).*1) with (areas_to_remove (mkRegistry d m) al).
  rewrite for_each_del_area.
  - pose proof (foldl_delete_areas_to_remove (mkRegistry d m) al) as Hf.
    cbn [_areas] in Hf. rewrite Hf.
    unfold del_driver. simpl. rewrite Hr.
    reflexivity.
  - apply NoDup_areas_to_remove.
  - intros k (area & Hl & _)%elem_of_areas_to_remove. eauto.
Qed.

(** When [al.quit()] raises, [_quit_driver] stops there: the raw driver is
    not closed and both dictionaries are as before. *)
Lemma quit_driver_interrupted o args r h al driver e :
  args !! "driver_id" = Some (VStr h) →
  _drivers r !! h = Some (al, driver) →
  o_al_quit o = Raise e →
  _quit_driver o args r = (Raise e, r, [EAlQuit al]).
Proof.
  intros Hd Hr Hq. munfold. rewrite Hd. simpl. repeat (rewrite Hr; simpl).
  by rewrite Hq.
Qed.

(** When [driver.quit()] raises, the engine has been released, and both
    dictionaries are as before. *)
Lemma quit_driver_interrupted_late o args r h al driver e :
  args !! "driver_id" = Some (VStr h) →
  _drivers r !! h = Some (al, driver) →
  o_al_quit o = Ret tt →
  o_driver_quit o = Raise e →
  _quit_driver o args r = (Raise e, r, [EAlQuit al; EDriverQuit driver]).
Proof.
  intros Hd Hr Hq1 Hq2. munfold. rewrite Hd. simpl. repeat (rewrite Hr; simpl).
  by rewrite Hq1, Hq2.
Qed.

Lemma quit_driver_outcome o args r :
  match _quit_driver o args r with
  | (Ret p, r', t) =>
      ∃ h al driver,
        args !! "driver_id" = Some (VStr h) ∧
        _drivers r !! h = Some (al, driver) ∧
        o_al_quit o = Ret tt ∧ o_driver_quit o = Ret tt
  | (Raise e, r', t) =>
      r' = r ∧ ∀ k, (EDelDriver k ∉ t) ∧ (EDelArea k ∉ t)
  end.
Proof.
  destruct (args !! "driver_id") as [v|] eqn:Hd.
  - destruct (drivers_lookup r v) as [[al driver]|] eqn:Hr.
    + destruct v as [| |h]; try done. simpl in Hr.
      destruct (o_al_quit o) as [[]|e1] eqn:Hq1;
        [destruct (o_driver_quit o) as [[]|e2] eqn:Hq2|].
      * erewrite quit_driver_completes by done. eauto 10.
      * munfold. rewrite Hd. simpl. repeat (rewrite Hr; simpl). rewrite Hq1, Hq2. simpl.
        split; [done|]. intros k; split; intros Hk; not_in_list Hk.
      * munfold. rewrite Hd. simpl. repeat (rewrite Hr; simpl). rewrite Hq1. simpl.
        split; [done|]. intros k; split; intros Hk; not_in_list Hk.
    + munfold. rewrite Hd. simpl. unfold drivers_lookup in Hr. rewrite Hr. simpl.
      split; [done|]. intros k; split; intros Hk; not_in_list Hk.
  - munfold. rewrite Hd. simpl.
    split; [done|]. intros k; split; intros Hk; not_in_list Hk.
Qed.

(** *** [_alumnium_area] *)

Lemma area_outcome o args r :
  match _alumnium_area o args r with
  | (Ret p, r', t) =>
      ∃ h al driver a description,
        args !! "driver_id" = Some (VStr h) ∧
        args !! "description" = Some description ∧
        _drivers r !! h = Some (al, driver) ∧
        o_al_area o = Ret a ∧
        r' = mkRegistry (_drivers r)
               (<[o_uuid4 o := mkArea a (al_driver al)]> (_areas r)) ∧
        p = text_payload (area_created_text (o_uuid4 o) description) ∧
        t = [EAlArea al description; EUuid4; ESetArea (o_uuid4 o)]
  | (Raise e, r', t) => r' = r ∧ ∀ k, ESetArea k ∉ t
  end.
Proof.
  destruct (args !! "driver_id") as [v|] eqn:Hd;
    [destruct (args !! "description") as [description|] eqn:Hx|].
  - destruct (drivers_lookup r v) as [[al driver]|] eqn:Hr.
    + destruct v as [| |h]; try done. simpl in Hr.
      munfold. rewrite Hd, Hx. simpl. repeat (rewrite Hr; simpl).
      destruct (o_al_area o) as [a|e] eqn:Ha; simpl.
      * eauto 20.
      * split; [done|]. intros k Hk; not_in_list Hk.
    + munfold. rewrite Hd, Hx. simpl. unfold drivers_lookup in Hr. rewrite Hr. simpl.
      split; [done|]. intros k Hk; not_in_list Hk.
  - munfold. rewrite Hd, Hx. simpl. split; [done|]. intros k Hk; not_in_list Hk.
  - munfold. rewrite Hd. simpl. split; [done|]. intros k Hk; not_in_list Hk.
Qed.

(** *** Sequences of calls *)

(** Each call leaves the registry alone, adds one driver session or one
    area under the identifier [uuid4] gave, or removes a driver session
    with its areas. *)
Lemma body_registry_step o nm args r :
  registry_step o nm args r (call_tool_body o nm args r).1.2.
Proof.
  unfold call_tool_body. repeat case_bool_decide; subst;
    rewrite ?do_registry, ?check_registry, ?get_registry, ?area_do_registry,
      ?area_check_registry, ?area_get_registry, ?get_accessibility_tree_registry,
      ?save_cache_registry;
    try apply step_none.
  - pose proof (start_driver_outcome o args r) as Ho.
    destruct (_start_driver o args r) as [[[p|e] r'] t]; simpl.
    + destruct Ho as (platform & al & driver & _ & _ & _ & -> & _). by apply step_start.
    + destruct Ho as [-> _]. apply step_none.
  - pose proof (area_outcome o args r) as Ho.
    destruct (_alumnium_area o args r) as [[[p|e] r'] t]; simpl.
    + destruct Ho as (h & al & driver & a & d & _ & _ & Hr & _ & -> & _).
      by eapply step_area.
    + destruct Ho as [-> _]. apply step_none.
  - pose proof (quit_driver_outcome o args r) as Ho.
    destruct (_quit_driver o args r) as [[[p|e] r'] t] eqn:Hq; simpl.
    + destruct Ho as (h & al & driver & Hd & Hr & Hq1 & Hq2).
      rewrite (quit_driver_completes o args r h al driver) in Hq by done.
      simplify_eq. by eapply step_quit.
    + destruct Ho as [-> _]. apply step_none.
Qed.

Lemma serve1_registry_step r q :
  registry_step (rq_oracle q) (rq_name q) (rq_args q) r (serve1 r q).
Proof. unfold serve1. rewrite call_tool_registry. apply body_registry_step. Qed.

Lemma serve_snoc qs q r : serve (qs ++ [q]) r = serve1 (serve qs r) q.
Proof. unfold serve. by rewrite foldl_snoc. Qed.

Lemma serve_app qs1 qs2 r : serve (qs1 ++ qs2) r = serve qs2 (serve qs1 r).
Proof. unfold serve. by rewrite foldl_app. Qed.

Lemma serve_cons q qs r : serve (q :: qs) r = serve qs (serve1 r q).
Proof. reflexivity. Qed.

(** Every handle in the registry was handed out by [uuid4] during one of
    the calls served so far. *)
Lemma serve_minted qs : minted qs (serve qs registry_init).
Proof.
  induction qs as [|q qs IH] using rev_ind.
  - intros k [[v H]|[v H]]; simpl in H;
      [by rewrite lookup_empty in H|by rewrite od_lookup_empty in H].
  - rewrite serve_snoc. unfold minted, uuids in *. rewrite fmap_app. simpl.
    intros k Hk. apply elem_of_app.
    destruct (serve1_registry_step (serve qs registry_init) q)
      as [|al driver _|h al driver a _ _|h al driver _ _ _]; simpl in Hk.
    + left. by apply IH.
    + destruct (decide (k = o_uuid4 (rq_oracle q))) as [->|Hne]; [right; in_list|].
      left. apply IH. by rewrite lookup_insert_ne in Hk.
    + destruct (decide (k = o_uuid4 (rq_oracle q))) as [->|Hne]; [right; in_list|].
      left. apply IH. by rewrite od_lookup_insert_ne in Hk.
    + left. apply IH. destruct Hk as [[v Hv]|[v Hv]].
      * left. apply lookup_delete_Some in Hv as [_ Hv]. eauto.
      * right. apply od_lookup_filter_Some in Hv as [Hv _]. eauto.
Qed.


(** * The claims *)

(** ** C2: unknown handles *)

(** C2.  For every handle [h] that is not a key of the dictionary an
    operation looks it up in (never minted, or already evicted), each of
    the ten handle-taking tools of the catalogue -- do, check, get, area,
    get_accessibility_tree, quit_driver, save_cache on [_drivers];
    area_do, area_check, area_get on [_areas] -- called with its required
    arguments, answers the not-found error naming [h]; the trace is empty,
    so the error precedes every call on the driver or the engine, and the
    registry is returned unchanged. *)
Theorem handle_not_found o t args r h :
  t ∈ list_tools →
  has_required t args →
  unknown_handle t args r h →
  ∃ noun hint,
    noun ∈ ["Driver"; "Area"] ∧
    call_tool o (name t) args r =
      (Ret (text_payload ("Error: " +:+ noun +:+ " " +:+ h +:+ " not found." +:+ hint)),
       r, []).
Proof. apply not_found_dispatch. Qed.

Lemma handle_not_found_witness :
  ∃ noun hint,
    noun ∈ ["Driver"; "Area"] ∧
    call_tool (quiet_oracle "u1") "do"
      {["driver_id" := VStr "zz"; "goal" := VStr "click"]} sample_registry =
      (Ret (text_payload ("Error: " +:+ noun +:+ " " +:+ "zz" +:+ " not found." +:+ hint)),
       sample_registry, []).
Proof.
  apply (handle_not_found (quiet_oracle "u1") tool_do
           {["driver_id" := VStr "zz"; "goal" := VStr "click"]} sample_registry "zz").
  - unfold list_tools, tool_do. in_list.
  - intros k Hk. cbv [tool_do required inputSchema] in Hk.
    apply elem_of_cons in Hk as [->|Hk]; [vm_compute; eauto|].
    apply elem_of_cons in Hk as [->|Hk]; [vm_compute; eauto|].
    by apply elem_of_nil in Hk.
  - left. split; [split|]; [cbv [tool_do required inputSchema]; in_list|reflexivity..].
Defined.

(** ** C1: cascading teardown *)

(** The area a successful [area] call registers is derived from the
    driver session it was asked of. *)
Lemma area_is_derived o args r h p r' t :
  args !! "driver_id" = Some (VStr h) →
  _alumnium_area o args r = (Ret p, r', t) →
  derived_from r' h (o_uuid4 o).
Proof.
  intros Hd H. pose proof (area_outcome o args r) as Ho. rewrite H in Ho.
  destruct Ho as (h' & al & driver & a & description & Hd' & _ & Hr & _ & -> & _).
  rewrite Hd in Hd'. simplify_eq.
  exists al, driver, (mkArea a (al_driver al)). simpl.
  split; [done|]. split; [apply od_lookup_insert_eq|done].
Qed.

Lemma quit_evicts_derived r h al driver a :
  _drivers r !! h = Some (al, driver) →
  derived_from r h a →
  _areas (registry_after_quit r h al) !! a = None.
Proof.
  intros Hr (al' & driver' & area & Hr' & Ha & Hp). rewrite Hr in Hr'. simplify_eq.
  simpl. apply od_lookup_filter_None. right. intros area' Ha' Hn. simpl in Hn.
  rewrite Ha in Ha'. by simplify_eq.
Qed.

(** An area stays derived from the session it was created on, or is
    gone, across a call that mints neither of the two handles anew. *)
Lemma derived_step o nm args r r' h a :
  registry_step o nm args r r' →
  o_uuid4 o ≠ h →
  o_uuid4 o ≠ a →
  _areas r !! a = None ∨ derived_from r h a →
  _areas r' !! a = None ∨ derived_from r' h a.
Proof.
  intros Hstep Hh Ha Hinv.
  destruct Hstep as [|al' driver' _|h' al' driver' a' _ _|h' al' driver' _ _ Hr'].
  - done.
  - destruct Hinv as [Hn|(al & driver & area & Hr & Hl & Hp)]; [by left|].
    right. exists al, driver, area. simpl. by rewrite lookup_insert_ne.
  - destruct Hinv as [Hn|(al & driver & area & Hr & Hl & Hp)].
    + left. simpl. by rewrite od_lookup_insert_ne.
    + right. exists al, driver, area. simpl. by rewrite od_lookup_insert_ne.
  - destruct Hinv as [Hn|(al & driver & area & Hr & Hl & Hp)].
    + left. simpl. apply od_lookup_filter_None. by left.
    + destruct (decide (area_driver area = al_driver al')) as [He|Hne].
      * left. simpl. apply od_lookup_filter_None. right.
        intros area' Hl' Hn. simpl in Hn. rewrite Hl in Hl'. by simplify_eq.
      * right. exists al, driver, area. simpl. split_and!.
        -- rewrite lookup_delete_ne; [done|]. intros ->.
           rewrite Hr in Hr'. by simplify_eq.
        -- by apply od_lookup_filter_Some.
        -- done.
Qed.

Lemma derived_serve qs r h a :
  h ∉ uuids qs →
  a ∉ uuids qs →
  _areas r !! a = None ∨ derived_from r h a →
  _areas (serve qs r) !! a = None ∨ derived_from (serve qs r) h a.
Proof.
  revert r. induction qs as [|q qs IH]; intros r Hh Ha Hinv; [done|].
  unfold uuids in Hh, Ha. rewrite fmap_cons in Hh, Ha.
  apply not_elem_of_cons in Hh as [Hh1 Hh2]. apply not_elem_of_cons in Ha as [Ha1 Ha2].
  rewrite serve_cons.
  apply IH; [done|done|].
  eapply derived_step; [apply serve1_registry_step|done|done|done].
Qed.

(** An area never outlives its parent: once an [area] call on [h] has
    returned the handle [a], then in the registry reached by any further
    calls -- [uuid4] never repeating an identifier -- either [a] is gone or
    [a] is still an area derived from the session registered under [h]. *)
Lemma area_never_outlives_parent qs1 oa args_a qs2 h p r1 t :
  NoDup (uuids (qs1 ++ mkRequest oa "area" args_a :: qs2)) →
  args_a !! "driver_id" = Some (VStr h) →
  call_tool_body oa "area" args_a (serve qs1 registry_init) = (Ret p, r1, t) →
  _areas (serve (qs1 ++ mkRequest oa "area" args_a :: qs2) registry_init)
    !! o_uuid4 oa = None ∨
  derived_from (serve (qs1 ++ mkRequest oa "area" args_a :: qs2) registry_init)
    h (o_uuid4 oa).
Proof.
  intros Hnd Hd Hbody. rewrite body_area in Hbody.
  assert (serve (qs1 ++ mkRequest oa "area" args_a :: qs2) registry_init =
          serve qs2 r1) as ->.
  { rewrite serve_app, serve_cons. f_equal.
    unfold serve1. simpl. rewrite call_tool_registry, body_area. by rewrite Hbody. }
  unfold uuids in Hnd. rewrite fmap_app, fmap_cons in Hnd. simpl in Hnd.
  apply NoDup_app in Hnd as (_ & Hdisj & [Hfresh _]%NoDup_cons).
  apply derived_serve; [|done|right; by eapply area_is_derived].
  intros Hin. apply (Hdisj h); [|by right].
  apply (serve_minted qs1). left.
  pose proof (area_outcome oa args_a (serve qs1 registry_init)) as Ho.
  rewrite Hbody in Ho. destruct Ho as (h' & al & driver & ? & ? & Hd' & ? & Hr & _).
  rewrite Hd in Hd'. simplify_eq. eauto.
Qed.

(** C1, as stated, fails: when [al.quit()] raises, [quit_driver] stops
    before anything is closed or evicted.  The handle [u1] and the area
    [u2] derived from it are still registered, and a [do] on [u1] and an
    [area_do] on [u2] are carried out, not answered with handle-not-found. *)
Lemma failed_quit_evicts_nothing :
  _drivers sample_session !! "u1" = Some (mkAlumni 3 4, 1) ∧
  derived_from sample_session "u1" "u2" ∧
  call_tool (failing_oracle "u3" (mkExn (OtherError "WebDriverException") "session gone"))
    "quit_driver" {["driver_id" := VStr "u1"]} sample_session =
    (Ret (text_payload "Error: session gone"), sample_session, [EAlQuit (mkAlumni 3 4)]) ∧
  call_tool (quiet_oracle "u4") "do"
    {["driver_id" := VStr "u1"; "goal" := VStr "click"]} sample_session =
    (Ret (text_payload "Successfully executed: click"), sample_session,
     [EAlDo (mkAlumni 3 4) (VStr "click")]) ∧
  call_tool (quiet_oracle "u4") "area_do"
    {["area_id" := VStr "u2"; "goal" := VStr "click"]} sample_session =
    (Ret (text_payload "Successfully executed in area: click"), sample_session,
     [EAreaDo (mkArea 5 4) (VStr "click")]).
Proof.
  split_and!; [reflexivity| |reflexivity..].
  exists (mkAlumni 3 4), 1, (mkArea 5 4). split; [|split]; reflexivity.
Qed.

(** C1, amended.  For every registered driver handle [h], [quit_driver]
    asks the engine to release its state ([al.quit()]) and then closes the
    raw driver ([driver.quit()]).  When both calls return, it deletes the
    areas derived from the session -- each once, and no other -- and
    deletes the session last: the trace is these events in this order.  In
    the registry it leaves, [h] and every area derived from [h] are gone
    while the other entries are as before, and every catalogue operation
    that references [h], or an area handle derived from [h], answers the
    not-found error without calling anything.  When [al.quit()] raises, or
    [driver.quit()] raises after it, the handler stops there with that
    exception: nothing is evicted and the registry is as it was. *)
Theorem quit_driver_cascade o args r h al driver :
  args !! "driver_id" = Some (VStr h) →
  _drivers r !! h = Some (al, driver) →
  (o_al_quit o = Ret tt →
   o_driver_quit o = Ret tt →
   ∃ evicted,
     NoDup evicted ∧
     (∀ a, a ∈ evicted ↔ derived_from r h a) ∧
     call_tool o "quit_driver" args r =
       (Ret (text_payload ("Driver " +:+ h +:+ " closed successfully")),
        registry_after_quit r h al,
        [EAlQuit al; EDriverQuit driver] ++ (EDelArea <$> evicted) ++ [EDelDriver h]) ∧
     _drivers (registry_after_quit r h al) !! h = None ∧
     (∀ k, k ≠ h → _drivers (registry_after_quit r h al) !! k = _drivers r !! k) ∧
     (∀ a, derived_from r h a → _areas (registry_after_quit r h al) !! a = None) ∧
     (∀ a, ¬ derived_from r h a →
           _areas (registry_after_quit r h al) !! a = _areas r !! a) ∧
     (∀ o' t args' x,
        t ∈ list_tools →
        has_required t args' →
        (references t args' "driver_id" x ∧ x = h) ∨
        (references t args' "area_id" x ∧ derived_from r h x) →
        not_found_answer (call_tool o' (name t) args' (registry_after_quit r h al))
          (registry_after_quit r h al) x)) ∧
  (∀ e,
     o_al_quit o = Raise e →
     call_tool_body o "quit_driver" args r = (Raise e, r, [EAlQuit al])) ∧
  (∀ e,
     o_al_quit o = Ret tt →
     o_driver_quit o = Raise e →
     call_tool_body o "quit_driver" args r = (Raise e, r, [EAlQuit al; EDriverQuit driver])).
Proof.
  intros Hd Hr. split_and!.
  - intros Hq1 Hq2.
    assert (∀ a, a ∈ areas_to_remove r al ↔ derived_from r h a) as Hev.
    { intros a. rewrite elem_of_areas_to_remove. split.
      - intros (area & Ha & Hp). exists al, driver, area. done.
      - intros (al' & driver' & area & Hr' & Ha & Hp). rewrite Hr in Hr'.
        simplify_eq. eauto. }
    exists (areas_to_remove r al). split_and!.
    + apply NoDup_areas_to_remove.
    + done.
    + apply call_tool_Ret. rewrite body_quit_driver.
      by apply quit_driver_completes.
    + apply lookup_delete_eq.
    + intros k Hk. simpl. by rewrite lookup_delete_ne.
    + intros a. by apply (quit_evicts_derived r h al driver).
    + intros a Hnot. simpl. destruct (_areas r !! a) as [area|] eqn:Ha.
      * apply od_lookup_filter_Some. split; [done|]. simpl. intros Hp.
        apply Hnot. exists al, driver, area. done.
      * apply od_lookup_filter_None. by left.
    + intros o' t args' x Ht Hreq Hx. apply not_found_dispatch; [done..|].
      destruct Hx as [[Href ->]|[Href Hder]].
      * left. split; [done|]. apply lookup_delete_eq.
      * right. split; [done|]. by apply (quit_evicts_derived r h al driver).
  - intros e Hq. rewrite body_quit_driver. by eapply quit_driver_interrupted.
  - intros e Hq1 Hq2. rewrite body_quit_driver. by eapply quit_driver_interrupted_late.
Qed.

Lemma quit_driver_cascade_witness :
  _drivers sample_session !! "u1" = Some (mkAlumni 3 4, 1) ∧
  derived_from sample_session "u1" "u2" ∧
  call_tool (quiet_oracle "u3") "quit_driver" {["driver_id" := VStr "u1"]} sample_session =
    (Ret (text_payload "Driver u1 closed successfully"),
     registry_after_quit sample_session "u1" (mkAlumni 3 4),
     [EAlQuit (mkAlumni 3 4); EDriverQuit 1; EDelArea "u2"; EDelDriver "u1"]) ∧
  not_found_answer
    (call_tool (quiet_oracle "u4") "area_check"
       {["area_id" := VStr "u2"; "statement" := VStr "the logo is visible"]}
       (registry_after_quit sample_session "u1" (mkAlumni 3 4)))
    (registry_after_quit sample_session "u1" (mkAlumni 3 4)) "u2".
Proof.
  assert (derived_from sample_session "u1" "u2") as Hder.
  { exists (mkAlumni 3 4), 1, (mkArea 5 4). split; [|split]; reflexivity. }
  destruct (quit_driver_cascade (quiet_oracle "u3") {["driver_id" := VStr "u1"]}
              sample_session "u1" (mkAlumni 3 4) 1)
    as (Hcompleted & _); [reflexivity..|].
  destruct Hcompleted as (evicted & _ & _ & _ & _ & _ & _ & _ & Hafter); [reflexivity..|].
  split; [reflexivity|]. split; [exact Hder|]. split; [reflexivity|].
  apply (Hafter (quiet_oracle "u4") tool_area_check).
  - unfold list_tools, tool_area_check. in_list.
  - intros k Hk. cbv [tool_area_check required inputSchema] in Hk.
    apply elem_of_cons in Hk as [->|Hk]; [vm_compute; eauto|].
    apply elem_of_cons in Hk as [->|Hk]; [vm_compute; eauto|].
    by apply elem_of_nil in Hk.
  - right. split; [|exact Hder].
    split; [cbv [tool_area_check required inputSchema]; in_list|reflexivity].
Defined.

(** ** C7: quitting twice *)

(** C7.  After a [quit_driver] on [h] that completed, a second
    [quit_driver] on [h] answers the not-found error; its trace is empty,
    so the raw driver is not closed a second time, and the registry is
    returned as the first call left it. *)
Theorem quit_driver_twice o1 o2 args1 args2 r h p r1 t1 :
  args1 !! "driver_id" = Some (VStr h) →
  args2 !! "driver_id" = Some (VStr h) →
  call_tool_body o1 "quit_driver" args1 r = (Ret p, r1, t1) →
  call_tool o2 "quit_driver" args2 r1 =
    (Ret (text_payload ("Error: Driver " +:+ h +:+ " not found.")), r1, []).
Proof.
  intros Hd1 Hd2 H1. rewrite body_quit_driver in H1.
  pose proof (quit_driver_outcome o1 args1 r) as Ho. rewrite H1 in Ho.
  destruct Ho as (h' & al & driver & Hd' & Hr & Hq1 & Hq2).
  rewrite Hd1 in Hd'. simplify_eq.
  rewrite (quit_driver_completes o1 args1 r h' al driver) in H1 by done.
  simplify_eq. apply quit_driver_not_found; [done|]. apply lookup_delete_eq.
Qed.

Lemma quit_driver_twice_witness :
  call_tool (quiet_oracle "u2") "quit_driver" {["driver_id" := VStr "d1"]}
    (registry_after_quit sample_registry "d1" (mkAlumni 3 4)) =
    (Ret (text_payload "Error: Driver d1 not found."),
     registry_after_quit sample_registry "d1" (mkAlumni 3 4), []).
Proof.
  apply (quit_driver_twice (quiet_oracle "u1") (quiet_oracle "u2")
           {["driver_id" := VStr "d1"]} {["driver_id" := VStr "d1"]}
           sample_registry "d1"
           (text_payload "Driver d1 closed successfully")
           (registry_after_quit sample_registry "d1" (mkAlumni 3 4))
           (quit_trace sample_registry "d1" (mkAlumni 3 4) 1)).
  - reflexivity.
  - reflexivity.
  - rewrite body_quit_driver.
    apply (quit_driver_completes _ _ _ "d1" (mkAlumni 3 4) 1); reflexivity.
Defined.

(** ** C5: platforms and failed construction *)

(** C5.  [start_driver] chooses the construction by platform: [chromium]
    starts with the Chrome constructor and [ios] with the Appium one;
    [android] answers the not-implemented error and any value outside
    the three the unsupported-platform error, both with an empty trace
    (nothing is constructed) and an unchanged registry.  When the Chrome
    or the Appium constructor raises, and more generally whenever the
    handler raises, the registry is unchanged, no entry is written, and
    the answer is the error text, which carries no handle (an exception
    that is not an [Exception] is not answered but leaves [call_tool]). *)
Theorem start_driver_platform o args r :
  (args !! "platform" = Some (VStr "android") →
   call_tool o "start_driver" args r =
     (Ret (text_payload
             "Error: Platform android requires Appium setup. Not yet implemented."),
      r, [])) ∧
  (∀ platform,
     args !! "platform" = Some platform →
     platform ∉ [VStr "chromium"; VStr "ios"; VStr "android"] →
     call_tool o "start_driver" args r =
       (Ret (text_payload ("Error: Unsupported platform: " +:+ py_str platform)), r, [])) ∧
  (∀ e,
     args !! "platform" = Some (VStr "chromium") →
     o_chrome o = Raise e →
     call_tool o "start_driver" args r = (rendered e, r, [EChrome])) ∧
  (∀ e,
     args !! "platform" = Some (VStr "ios") →
     args_get args "url" VNone ≠ VBool true →
     o_appium o = Raise e →
     ∃ client_config options,
       call_tool o "start_driver" args r =
         (rendered e, r, [EAppium client_config options])) ∧
  (∀ e r' t,
     call_tool_body o "start_driver" args r = (Raise e, r', t) →
     r' = r ∧ (∀ k, ESetDriver k ∉ t) ∧
     call_tool o "start_driver" args r = (rendered e, r, t)) ∧
  (∀ p r' t,
     call_tool_body o "start_driver" args r = (Ret p, r', t) →
     (args !! "platform" = Some (VStr "chromium") ∧ ∃ t', t = EChrome :: t') ∨
     (args !! "platform" = Some (VStr "ios") ∧
        ∃ client_config options t', t = EAppium client_config options :: t')).
Proof.
  split_and!.
  - intros H. etrans; [apply call_tool_Raise; rewrite body_start_driver;
                       by apply start_driver_android|reflexivity].
  - intros platform H Hp.
    etrans; [apply call_tool_Raise; rewrite body_start_driver;
             by apply start_driver_unsupported|reflexivity].
  - intros e H He.
    etrans; [apply call_tool_Raise; rewrite body_start_driver;
             by apply start_driver_chrome_fails|reflexivity].
  - intros e H Hurl He.
    destruct (start_driver_appium_fails o args r e H Hurl He) as (cfg & opts & Hs).
    exists cfg, opts. apply call_tool_Raise. by rewrite body_start_driver.
  - intros e r' t H. pose proof (start_driver_outcome o args r) as Ho.
    rewrite body_start_driver in H. rewrite H in Ho. destruct Ho as [-> Ht].
    split; [done|]. split; [done|]. apply call_tool_Raise. by rewrite body_start_driver.
  - intros p r' t H. pose proof (start_driver_outcome o args r) as Ho.
    rewrite body_start_driver in H. rewrite H in Ho.
    destruct Ho as (platform & al & driver & Hp & [(-> & _ & Ht)|(-> & _ & Ht)] & _);
      [left|right]; done.
Qed.

Lemma start_driver_platform_witness :
  call_tool (quiet_oracle "u1") "start_driver" {["platform" := VStr "android"]}
    sample_registry =
    (Ret (text_payload
            "Error: Platform android requires Appium setup. Not yet implemented."),
     sample_registry, []) ∧
  call_tool (failing_oracle "u1" (mkExn (OtherError "WebDriverException") "no chrome"))
    "start_driver" {["platform" := VStr "chromium"]} sample_registry =
    (Ret (text_payload "Error: no chrome"), sample_registry, [EChrome]).
Proof.
  split.
  - apply (proj1 (start_driver_platform (quiet_oracle "u1")
                    {["platform" := VStr "android"]} sample_registry)).
    reflexivity.
  - destruct (start_driver_platform
                (failing_oracle "u1" (mkExn (OtherError "WebDriverException") "no chrome"))
                {["platform" := VStr "chromium"]} sample_registry)
      as (_ & _ & Hchrome & _).
    apply (Hchrome (mkExn (OtherError "WebDriverException") "no chrome")); reflexivity.
Defined.

(** ** C3: what [call_tool] catches *)

Lemma start_driver_textual o args r : textual (_start_driver o args r).
Proof.
  unfold textual. pose proof (start_driver_outcome o args r) as Ho.
  destruct (_start_driver o args r) as [[[p|e] r'] t]; simpl; [|done].
  destruct Ho as (? & ? & ? & _ & _ & _ & _ & ->). eauto.
Qed.

Lemma do_textual o args r : textual (_alumnium_do o args r).
Proof. unfold textual. munfold. outcome_cases; eauto. Qed.

Lemma check_textual o args r : textual (_alumnium_check o args r).
Proof. unfold textual. munfold. outcome_cases; eauto. Qed.

Lemma get_textual o args r : textual (_alumnium_get o args r).
Proof. unfold textual. munfold. outcome_cases; eauto. Qed.

Lemma area_textual o args r : textual (_alumnium_area o args r).
Proof.
  unfold textual. pose proof (area_outcome o args r) as Ho.
  destruct (_alumnium_area o args r) as [[[p|e] r'] t]; simpl; [|done].
  destruct Ho as (? & ? & ? & ? & ? & _ & _ & _ & _ & _ & -> & _). eauto.
Qed.

Lemma area_do_textual o args r : textual (_area_do o args r).
Proof. unfold textual. munfold. outcome_cases; eauto. Qed.

Lemma area_check_textual o args r : textual (_area_check o args r).
Proof. unfold textual. munfold. outcome_cases; eauto. Qed.

Lemma area_get_textual o args r : textual (_area_get o args r).
Proof. unfold textual. munfold. outcome_cases; eauto. Qed.

Lemma get_accessibility_tree_textual o args r :
  textual (_get_accessibility_tree o args r).
Proof. unfold textual. munfold. outcome_cases; eauto. Qed.

Lemma quit_driver_textual o args r : textual (_quit_driver o args r).
Proof.
  unfold textual. pose proof (quit_driver_outcome o args r) as Ho.
  destruct (_quit_driver o args r) as [[[p|e] r'] t] eqn:Hq; simpl; [|done].
  destruct Ho as (h & al & driver & Hd & Hr & Hq1 & Hq2).
  rewrite (quit_driver_completes o args r h al driver) in Hq by done.
  simplify_eq. eauto.
Qed.

Lemma save_cache_textual o args r : textual (_save_cache o args r).
Proof. unfold textual. munfold. outcome_cases; eauto. Qed.

Lemma body_textual o nm args r : textual (call_tool_body o nm args r).
Proof.
  unfold call_tool_body. repeat case_bool_decide;
    auto using start_driver_textual, do_textual, check_textual, get_textual,
      area_textual, area_do_textual, area_check_textual, area_get_textual,
      get_accessibility_tree_textual, quit_driver_textual, save_cache_textual.
  exact I.
Qed.

Lemma raised_elem {A} (x : outcome A) e : x = Raise e → e ∈ raised x.
Proof. intros ->. apply list_elem_of_here. Qed.

(** Where an exception that leaves a handler comes from. *)
Ltac from_world :=
  right; unfold oracle_exceptions; rewrite !elem_of_app; eauto 20 using raised_elem.

Ltac own_or_world_cases := first [exact I | left; reflexivity | from_world].

Lemma start_driver_raises o args r : own_or_world o (_start_driver o args r).
Proof. unfold own_or_world. munfold. outcome_cases; own_or_world_cases. Qed.

Lemma do_raises o args r : own_or_world o (_alumnium_do o args r).
Proof. unfold own_or_world. munfold. outcome_cases; own_or_world_cases. Qed.

Lemma check_raises o args r : own_or_world o (_alumnium_check o args r).
Proof. unfold own_or_world. munfold. outcome_cases; own_or_world_cases. Qed.

Lemma get_raises o args r : own_or_world o (_alumnium_get o args r).
Proof. unfold own_or_world. munfold. outcome_cases; own_or_world_cases. Qed.

Lemma area_raises o args r : own_or_world o (_alumnium_area o args r).
Proof. unfold own_or_world. munfold. outcome_cases; own_or_world_cases. Qed.

Lemma area_do_raises o args r : own_or_world o (_area_do o args r).
Proof. unfold own_or_world. munfold. outcome_cases; own_or_world_cases. Qed.

Lemma area_check_raises o args r : own_or_world o (_area_check o args r).
Proof. unfold own_or_world. munfold. outcome_cases; own_or_world_cases. Qed.

Lemma area_get_raises o args r : own_or_world o (_area_get o args r).
Proof. unfold own_or_world. munfold. outcome_cases; own_or_world_cases. Qed.

Lemma get_accessibility_tree_raises o args r :
  own_or_world o (_get_accessibility_tree o args r).
Proof. unfold own_or_world. munfold. outcome_cases; own_or_world_cases. Qed.

Lemma quit_driver_raises o args r : own_or_world o (_quit_driver o args r).
Proof.
  unfold own_or_world.
  destruct (args !! "driver_id") as [v|] eqn:Hd.
  - destruct (drivers_lookup r v) as [[al driver]|] eqn:Hr.
    + destruct v as [| |h]; try done. simpl in Hr.
      destruct (o_al_quit o) as [[]|e1] eqn:Hq1;
        [destruct (o_driver_quit o) as [[]|e2] eqn:Hq2|].
      * by erewrite quit_driver_completes.
      * erewrite quit_driver_interrupted_late by done. simpl. from_world.
      * erewrite quit_driver_interrupted by done. simpl. from_world.
    + munfold. rewrite Hd. simpl. unfold drivers_lookup in Hr. rewrite Hr. simpl.
      by left.
  - munfold. rewrite Hd. simpl. by left.
Qed.

Lemma save_cache_raises o args r : own_or_world o (_save_cache o args r).
Proof. unfold own_or_world. munfold. outcome_cases; own_or_world_cases. Qed.

Lemma body_raises o nm args r : own_or_world o (call_tool_body o nm args r).
Proof.
  unfold call_tool_body. repeat case_bool_decide;
    auto using start_driver_raises, do_raises, check_raises, get_raises,
      area_raises, area_do_raises, area_check_raises, area_get_raises,
      get_accessibility_tree_raises, quit_driver_raises, save_cache_raises.
  by left.
Qed.

(** C3, as stated, fails: [call_tool] catches [Exception] only.  When the
    engine's [do] is cancelled -- [asyncio.CancelledError] derives from
    [BaseException] alone -- the exception leaves [call_tool] and no
    payload is returned. *)
Lemma cancelled_call_propagates :
  call_tool (failing_oracle "u1" (mkExn (BaseOnly "CancelledError") EmptyString))
    "do" {["driver_id" := VStr "d1"; "goal" := VStr "click"]} sample_registry =
    (Raise (mkExn (BaseOnly "CancelledError") EmptyString), sample_registry,
     [EAlDo (mkAlumni 3 4) (VStr "click")]).
Proof. reflexivity. Qed.

(** C3, amended.  For every tool name, argument mapping, world and
    registry: a value returned by the [try] body of [call_tool] is a text
    payload and is passed on as it is; an exception [e] raised in the body
    that is an [Exception] -- raised by a handler, by the engine or the
    driver, or for an unknown tool name -- becomes the text [Error: ]
    followed by [str(e)]; an exception that is not an [Exception] leaves
    [call_tool], and such an exception is never one a handler raises itself
    but one raised by the outside world.  Registry and trace are those the
    body left.  So when the outside world raises nothing but [Exception]s,
    [call_tool] returns a text payload. *)
Theorem call_tool_catches o nm args r :
  (∀ p r' t,
     call_tool_body o nm args r = (Ret p, r', t) →
     call_tool o nm args r = (Ret p, r', t) ∧ ∃ s, p = text_payload s) ∧
  (∀ e r' t,
     call_tool_body o nm args r = (Raise e, r', t) →
     is_Exception e = true →
     call_tool o nm args r = (Ret (text_payload ("Error: " +:+ exc_str e)), r', t)) ∧
  (∀ e r' t,
     call_tool_body o nm args r = (Raise e, r', t) →
     is_Exception e = false →
     call_tool o nm args r = (Raise e, r', t) ∧ e ∈ oracle_exceptions o) ∧
  (Forall (λ e, is_Exception e = true) (oracle_exceptions o) →
   ∃ s,
     call_tool o nm args r =
       (Ret (text_payload s), (call_tool_body o nm args r).1.2,
        (call_tool_body o nm args r).2)).
Proof.
  pose proof (body_textual o nm args r) as Ht. unfold textual in Ht.
  pose proof (body_raises o nm args r) as Hw. unfold own_or_world in Hw.
  split_and!.
  - intros p r' t Hb. rewrite Hb in Ht. simpl in Ht.
    split; [by apply call_tool_Ret|done].
  - intros e r' t Hb He. rewrite (call_tool_Raise _ _ _ _ _ _ _ Hb).
    unfold rendered. by rewrite He.
  - intros e r' t Hb He. rewrite Hb in Hw. simpl in Hw.
    split.
    + rewrite (call_tool_Raise _ _ _ _ _ _ _ Hb). unfold rendered. by rewrite He.
    + destruct Hw as [Hw|Hw]; [congruence|done].
  - intros Hall.
    destruct (call_tool_body o nm args r) as [[[p|e] r'] t] eqn:Hb; simpl in *.
    + destruct Ht as [s ->]. exists s. by apply call_tool_Ret.
    + exists ("Error: " +:+ exc_str e).
      rewrite (call_tool_Raise _ _ _ _ _ _ _ Hb). unfold rendered.
      destruct Hw as [->|Hw]; [done|].
      rewrite Forall_forall in Hall. by rewrite (Hall e Hw).
Qed.

Lemma call_tool_catches_witness :
  ∃ s,
    call_tool (failing_oracle "u1" (mkExn (OtherError "TimeoutException") "timed out"))
      "get" {["driver_id" := VStr "d1"; "data" := VStr "item count"]} sample_registry =
      (Ret (text_payload s), sample_registry,
       [EAlGet (mkAlumni 3 4) (VStr "item count") (VBool false)]).
Proof.
  destruct (call_tool_catches
              (failing_oracle "u1" (mkExn (OtherError "TimeoutException") "timed out"))
              "get" {["driver_id" := VStr "d1"; "data" := VStr "item count"]}
              sample_registry) as (_ & _ & _ & Hpayload).
  apply Hpayload. unfold oracle_exceptions. simpl.
  repeat (apply Forall_cons_2; [reflexivity|]). apply Forall_nil_2.
Defined.

(** ** C10: a failed verification at the two scopes *)

(** C10.  When the engine's [check] raises an [AssertionError] with text
    [msg]: on a registered driver handle the handler catches it and the
    call answers the normal payload [Check finished: .. Result: False
    Explanation: msg]; on a registered area handle the handler lets it
    through and [call_tool] answers [Error: msg]. *)
Theorem failed_check_asymmetry o args r statement msg :
  args !! "statement" = Some statement →
  (∀ h al driver,
     args !! "driver_id" = Some (VStr h) →
     _drivers r !! h = Some (al, driver) →
     o_al_check o = Raise (mkExn AssertionError msg) →
     _alumnium_check o args r =
       (Ret (text_payload
               ("Check finished: " +:+ py_str statement +:+ nl +:+
                "Result: False" +:+ nl +:+
                "Explanation: " +:+ msg)),
        r, [EAlCheck al statement (args_get args "vision" (VBool false))]) ∧
     call_tool o "check" args r = _alumnium_check o args r) ∧
  (∀ a area,
     args !! "area_id" = Some (VStr a) →
     _areas r !! a = Some area →
     o_area_check o = Raise (mkExn AssertionError msg) →
     _area_check o args r =
       (Raise (mkExn AssertionError msg), r,
        [EAreaCheck area statement (args_get args "vision" (VBool false))]) ∧
     call_tool o "area_check" args r =
       (Ret (text_payload ("Error: " +:+ msg)), r,
        [EAreaCheck area statement (args_get args "vision" (VBool false))])).
Proof.
  intros Hs. split.
  - intros h al driver Hd Hr Hc.
    assert (_alumnium_check o args r =
              (Ret (text_payload
                      ("Check finished: " +:+ py_str statement +:+ nl +:+
                       "Result: False" +:+ nl +:+ "Explanation: " +:+ msg)),
               r, [EAlCheck al statement (args_get args "vision" (VBool false))])) as Hh.
    { munfold. rewrite Hd, Hs. simpl. repeat (rewrite Hr; simpl).
      rewrite Hc. reflexivity. }
    split; [done|]. rewrite Hh. apply call_tool_Ret. by rewrite body_check.
  - intros a area Hd Hr Hc.
    assert (_area_check o args r =
              (Raise (mkExn AssertionError msg), r,
               [EAreaCheck area statement (args_get args "vision" (VBool false))])) as Hh.
    { munfold. rewrite Hd, Hs. simpl. repeat (rewrite Hr; simpl).
      rewrite Hc. reflexivity. }
    split; [done|].
    etrans; [apply call_tool_Raise; rewrite body_area_check; exact Hh|reflexivity].
Qed.

Lemma failed_check_asymmetry_witness :
  call_tool (failing_oracle "u1" (mkExn AssertionError "title is Home"))
    "check" {["driver_id" := VStr "d1"; "statement" := VStr "title is Login"]}
    sample_registry =
    (Ret (text_payload
            ("Check finished: title is Login" +:+ nl +:+
             "Result: False" +:+ nl +:+ "Explanation: title is Home")),
     sample_registry, [EAlCheck (mkAlumni 3 4) (VStr "title is Login") (VBool false)]) ∧
  call_tool (failing_oracle "u1" (mkExn AssertionError "title is Home"))
    "area_check" {["area_id" := VStr "a1"; "statement" := VStr "title is Login"]}
    sample_registry =
    (Ret (text_payload "Error: title is Home"),
     sample_registry, [EAreaCheck (mkArea 5 4) (VStr "title is Login") (VBool false)]).
Proof.
  split.
  - destruct (failed_check_asymmetry
                (failing_oracle "u1" (mkExn AssertionError "title is Home"))
                {["driver_id" := VStr "d1"; "statement" := VStr "title is Login"]}
                sample_registry (VStr "title is Login") "title is Home")
      as [Hdriver _]; [reflexivity|].
    destruct (Hdriver "d1" (mkAlumni 3 4) 1) as [Hh Hc]; [reflexivity..|].
    rewrite Hc. exact Hh.
  - destruct (failed_check_asymmetry
                (failing_oracle "u1" (mkExn AssertionError "title is Home"))
                {["area_id" := VStr "a1"; "statement" := VStr "title is Login"]}
                sample_registry (VStr "title is Login") "title is Home")
      as [_ Harea]; [reflexivity|].
    destruct (Harea "a1" (mkArea 5 4)) as [_ Hc]; [reflexivity..|].
    exact Hc.
Defined.

(** ** C8: the advertised catalogue *)

(** C8, as stated, fails: no advertised tool is named [get_debug_tree],
    the advertised rows are not those of the specification's table, and a
    call of [get_debug_tree] with a registered driver handle is answered as
    an unknown tool. *)
Lemma get_debug_tree_not_advertised :
  ("get_debug_tree" ∉ name <$> list_tools) ∧
  (catalogue_rows ≠ spec_catalogue) ∧
  call_tool (quiet_oracle "u1") "get_debug_tree" {["driver_id" := VStr "d1"]}
    sample_registry =
    (Ret (text_payload "Error: Unknown tool: get_debug_tree"), sample_registry, []).
Proof.
  split; [|split].
  - intros H. simpl in H. not_in_list H.
  - discriminate.
  - reflexivity.
Qed.

(** C8, amended.  Capability discovery returns eleven tool definitions, one
    per row of the table and in its order, whose names and required
    arguments are those of the table once [get_debug_tree] is read
    [get_accessibility_tree], [driver_handle] is read [driver_id] and
    [area_handle] is read [area_id]; the tool advertised for the debug tree
    is [get_accessibility_tree], its only required argument is
    [driver_id], that name is the one [call_tool] dispatches to
    [_get_accessibility_tree], and a name that is not advertised is
    answered as an unknown tool. *)
Theorem catalogue_advertised :
  length list_tools = 11 ∧
  catalogue_rows =
    (λ row : string * list string,
       (code_tool_name row.1, code_argument_name <$> row.2)) <$> spec_catalogue ∧
  NoDup (name <$> list_tools) ∧
  ("get_accessibility_tree", ["driver_id"]) ∈ catalogue_rows ∧
  (∀ o args,
     call_tool_body o "get_accessibility_tree" args = _get_accessibility_tree o args) ∧
  (∀ o nm args r,
     nm ∉ name <$> list_tools →
     call_tool o nm args r =
       (Ret (text_payload ("Error: Unknown tool: " +:+ nm)), r, [])).
Proof.
  split_and!.
  - reflexivity.
  - reflexivity.
  - simpl. repeat (apply NoDup_cons; split; [intros H; not_in_list H|]).
    apply NoDup_nil. done.
  - unfold catalogue_rows. simpl. in_list.
  - intros o args. reflexivity.
  - intros o nm args r Hnm.
    etrans; [apply call_tool_Raise; by rewrite body_unknown|reflexivity].
Qed.

Lemma catalogue_advertised_witness :
  call_tool (quiet_oracle "u1") "alumnium_do"
    {["driver_id" := VStr "d1"; "goal" := VStr "click the login link"]} sample_registry =
    (Ret (text_payload "Error: Unknown tool: alumnium_do"), sample_registry, []).
Proof.
  destruct catalogue_advertised as (_ & _ & _ & _ & _ & Hunknown).
  apply (Hunknown (quiet_oracle "u1") "alumnium_do").
  intros H. simpl in H. not_in_list H.
Defined.

(** ** C6: minted handles *)




(** * Further properties of the handlers *)

(** ** Which calls write to the registry *)

Ltac no_registry_events :=
  repeat first [apply Forall_nil_2 | apply Forall_cons_2; [reflexivity|]].

Lemma do_quiet o args r :
  Forall (λ ev, registry_event ev = false) (_alumnium_do o args r).2.
Proof. munfold. outcome_cases; no_registry_events. Qed.

Lemma check_quiet o args r :
  Forall (λ ev, registry_event ev = false) (_alumnium_check o args r).2.
Proof. munfold. outcome_cases; no_registry_events. Qed.

Lemma get_quiet o args r :
  Forall (λ ev, registry_event ev = false) (_alumnium_get o args r).2.
Proof. munfold. outcome_cases; no_registry_events. Qed.

Lemma area_do_quiet o args r :
  Forall (λ ev, registry_event ev = false) (_area_do o args r).2.
Proof. munfold. outcome_cases; no_registry_events. Qed.

Lemma area_check_quiet o args r :
  Forall (λ ev, registry_event ev = false) (_area_check o args r).2.
Proof. munfold. outcome_cases; no_registry_events. Qed.

Lemma area_get_quiet o args r :
  Forall (λ ev, registry_event ev = false) (_area_get o args r).2.
Proof. munfold. outcome_cases; no_registry_events. Qed.

Lemma get_accessibility_tree_quiet o args r :
  Forall (λ ev, registry_event ev = false) (_get_accessibility_tree o args r).2.
Proof. munfold. outcome_cases; no_registry_events. Qed.

Lemma save_cache_quiet o args r :
  Forall (λ ev, registry_event ev = false) (_save_cache o args r).2.
Proof. munfold. outcome_cases; no_registry_events. Qed.

Lemma call_tool_trace o nm args r :
  (call_tool o nm args r).2 = (call_tool_body o nm args r).2.
Proof.
  unfold call_tool, try_except.
  destruct (call_tool_body o nm args r) as [[[p|e] r'] t]; simpl; [done|].
  destruct (is_Exception e); simpl; [apply app_nil_r|done].
Qed.

(** X1.  The eight tools do, check, get, area_do, area_check, area_get,
    get_accessibility_tree and save_cache never write to the registry:
    whatever the arguments and whatever the engine answers or raises, the
    registry after the call is the registry before it and the trace holds
    no write to [_drivers] or [_areas]. *)
Theorem read_only_tools_keep_registry o nm args r :
  nm ∈ read_only_tools →
  (call_tool o nm args r).1.2 = r ∧
  Forall (λ ev, registry_event ev = false) (call_tool o nm args r).2.
Proof.
  intros Hnm. rewrite call_tool_registry, call_tool_trace.
  unfold read_only_tools in Hnm.
  repeat (apply elem_of_cons in Hnm as [->|Hnm]);
    [..|by apply elem_of_nil in Hnm]; autorewrite with dispatch.
  - split; [apply do_registry|apply do_quiet].
  - split; [apply check_registry|apply check_quiet].
  - split; [apply get_registry|apply get_quiet].
  - split; [apply area_do_registry|apply area_do_quiet].
  - split; [apply area_check_registry|apply area_check_quiet].
  - split; [apply area_get_registry|apply area_get_quiet].
  - split; [apply get_accessibility_tree_registry|apply get_accessibility_tree_quiet].
  - split; [apply save_cache_registry|apply save_cache_quiet].
Qed.

Lemma read_only_tools_keep_registry_witness :
  (call_tool (failing_oracle "u1" (mkExn (OtherError "TimeoutException") "timed out"))
     "do" {["driver_id" := VStr "d1"; "goal" := VStr "click"]} sample_registry).1.2 =
    sample_registry ∧
  Forall (λ ev, registry_event ev = false)
    (call_tool (failing_oracle "u1" (mkExn (OtherError "TimeoutException") "timed out"))
       "do" {["driver_id" := VStr "d1"; "goal" := VStr "click"]} sample_registry).2.
Proof.
  apply (read_only_tools_keep_registry
           (failing_oracle "u1" (mkExn (OtherError "TimeoutException") "timed out")) "do").
  unfold read_only_tools. in_list.
Defined.

Ltac clean_raise := first [exact I | split; [reflexivity|no_registry_events]].

Lemma start_driver_raise_is_clean o args r : raise_is_clean (_start_driver o args r) r.
Proof. unfold raise_is_clean. munfold. outcome_cases; clean_raise. Qed.

Lemma area_raise_is_clean o args r : raise_is_clean (_alumnium_area o args r) r.
Proof. unfold raise_is_clean. munfold. outcome_cases; clean_raise. Qed.

Lemma quit_driver_raise_is_clean o args r : raise_is_clean (_quit_driver o args r) r.
Proof.
  unfold raise_is_clean.
  destruct (args !! "driver_id") as [v|] eqn:Hd.
  - destruct (drivers_lookup r v) as [[al driver]|] eqn:Hr.
    + destruct v as [| |h]; try done. simpl in Hr.
      destruct (o_al_quit o) as [[]|e1] eqn:Hq1;
        [destruct (o_driver_quit o) as [[]|e2] eqn:Hq2|].
      * by erewrite quit_driver_completes.
      * munfold. rewrite Hd. simpl. repeat (rewrite Hr; simpl). rewrite Hq1, Hq2. simpl.
        clean_raise.
      * munfold. rewrite Hd. simpl. repeat (rewrite Hr; simpl). rewrite Hq1. simpl.
        clean_raise.
    + munfold. rewrite Hd. simpl. unfold drivers_lookup in Hr. rewrite Hr. simpl.
      clean_raise.
  - munfold. rewrite Hd. simpl. clean_raise.
Qed.

Lemma read_only_raise_is_clean (x : outcome (list content) * registry * list event) r :
  x.1.2 = r → Forall (λ ev, registry_event ev = false) x.2 → raise_is_clean x r.
Proof. destruct x as [[[p|e] r'] t]; simpl; [done|]. intros -> Ht. done. Qed.

(** X2.  A call that fails changes nothing: whenever the body of
    [call_tool] raises -- for whatever tool name, arguments and answers of
    the outside world -- the registry is the one the call started from and
    no write to [_drivers] or [_areas] has happened; the error answer (or
    the exception itself, when it is not an [Exception]) leaves [call_tool]
    over that same registry. *)
Theorem failed_call_keeps_registry o nm args r e r' t :
  call_tool_body o nm args r = (Raise e, r', t) →
  r' = r ∧
  Forall (λ ev, registry_event ev = false) t ∧
  call_tool o nm args r = (rendered e, r, t).
Proof.
  intros H.
  assert (raise_is_clean (call_tool_body o nm args r) r) as Hc.
  { unfold call_tool_body. repeat case_bool_decide;
      auto using start_driver_raise_is_clean, area_raise_is_clean,
        quit_driver_raise_is_clean;
      try (apply read_only_raise_is_clean;
           auto using do_registry, check_registry, get_registry, area_do_registry,
             area_check_registry, area_get_registry, get_accessibility_tree_registry,
             save_cache_registry, do_quiet, check_quiet, get_quiet, area_do_quiet,
             area_check_quiet, area_get_quiet, get_accessibility_tree_quiet,
             save_cache_quiet). }
  rewrite H in Hc. destruct Hc as [-> Ht].
  split; [done|]. split; [done|]. by apply call_tool_Raise.
Qed.

Lemma failed_call_keeps_registry_witness :
  call_tool (failing_oracle "u9" (mkExn (OtherError "NoSuchElementException") "no such area"))
    "area" {["driver_id" := VStr "d1"; "description" := VStr "sidebar"]} sample_registry =
    (Ret (text_payload "Error: no such area"), sample_registry,
     [EAlArea (mkAlumni 3 4) (VStr "sidebar")]).
Proof.
  destruct (failed_call_keeps_registry
              (failing_oracle "u9" (mkExn (OtherError "NoSuchElementException") "no such area"))
              "area" {["driver_id" := VStr "d1"; "description" := VStr "sidebar"]}
              sample_registry
              (mkExn (OtherError "NoSuchElementException") "no such area")
              sample_registry [EAlArea (mkAlumni 3 4) (VStr "sidebar")])
    as (_ & _ & Hcall); [reflexivity|exact Hcall].
Defined.

(** ** Operations on a registered handle *)

Section registered_driver.
Context (o : oracle) (args : arguments) (r : registry).
Context (h : string) (al : Alumni) (driver : obj).
Context (Hd : args !! "driver_id" = Some (VStr h)).
Context (Hr : _drivers r !! h = Some (al, driver)).

Ltac on_registered Hx :=
  munfold; rewrite Hd, ?Hx; simpl; repeat (rewrite Hr; simpl);
  repeat case_inner; reflexivity.

Lemma do_on_registered goal :
  args !! "goal" = Some goal →
  _alumnium_do o args r =
    (match o_al_do o with
     | Ret _ => Ret (text_payload ("Successfully executed: " +:+ py_str goal))
     | Raise e => Raise e
     end, r, [EAlDo al goal]).
Proof. intros Hx. on_registered Hx. Qed.

Lemma get_on_registered data :
  args !! "data" = Some data →
  _alumnium_get o args r =
    (match o_al_get o with
     | Ret result => Ret (text_payload ("Extracted data: " +:+ result))
     | Raise e => Raise e
     end, r, [EAlGet al data (args_get args "vision" (VBool false))]).
Proof. intros Hx. on_registered Hx. Qed.

Lemma check_on_registered statement :
  args !! "statement" = Some statement →
  _alumnium_check o args r =
    (match o_al_check o with
     | Ret explanation =>
         Ret (text_payload
                ("Check finished: " +:+ py_str statement +:+ nl +:+
                 "Result: True" +:+ nl +:+ "Explanation: " +:+ explanation))
     | Raise e =>
         if is_AssertionError e
         then Ret (text_payload
                     ("Check finished: " +:+ py_str statement +:+ nl +:+
                      "Result: False" +:+ nl +:+ "Explanation: " +:+ exc_str e))
         else Raise e
     end, r, [EAlCheck al statement (args_get args "vision" (VBool false))]).
Proof. intros Hx. on_registered Hx. Qed.

Lemma get_accessibility_tree_on_registered :
  _get_accessibility_tree o args r =
    (match o_accessibility_tree o with
     | Ret tree => Ret (text_payload ("Accessibility Tree:" +:+ nl +:+ tree))
     | Raise e => Raise e
     end, r, [EAccessibilityTree al]).
Proof. on_registered Hd. Qed.

Lemma save_cache_on_registered :
  _save_cache o args r =
    (match o_cache_save o with
     | Ret _ => Ret (text_payload ("Cache saved successfully for driver " +:+ h))
     | Raise e => Raise e
     end, r, [ECacheSave al]).
Proof. on_registered Hd. Qed.
End registered_driver.

Section registered_area.
Context (o : oracle) (args : arguments) (r : registry).
Context (a : string) (area : Area).
Context (Hd : args !! "area_id" = Some (VStr a)).
Context (Hr : _areas r !! a = Some area).

Ltac on_registered Hx :=
  munfold; rewrite Hd, ?Hx; simpl; repeat (rewrite Hr; simpl);
  repeat case_inner; reflexivity.

Lemma area_do_on_registered goal :
  args !! "goal" = Some goal →
  _area_do o args r =
    (match o_area_do o with
     | Ret _ => Ret (text_payload ("Successfully executed in area: " +:+ py_str goal))
     | Raise e => Raise e
     end, r, [EAreaDo area goal]).
Proof. intros Hx. on_registered Hx. Qed.

Lemma area_check_on_registered statement :
  args !! "statement" = Some statement →
  _area_check o args r =
    (match o_area_check o with
     | Ret explanation =>
         Ret (text_payload
                ("Check passed: " +:+ py_str statement +:+ nl +:+
                 "Explanation: " +:+ explanation))
     | Raise e => Raise e
     end, r, [EAreaCheck area statement (args_get args "vision" (VBool false))]).
Proof. intros Hx. on_registered Hx. Qed.

Lemma area_get_on_registered data :
  args !! "data" = Some data →
  _area_get o args r =
    (match o_area_get o with
     | Ret result => Ret (text_payload ("Extracted data: " +:+ result))
     | Raise e => Raise e
     end, r, [EAreaGet area data (args_get args "vision" (VBool false))]).
Proof. intros Hx. on_registered Hx. Qed.
End registered_area.

(** X3.  The handle a successful [start_driver] returns leads back to the
    engine that call built: on the registry it leaves, do, get,
    get_accessibility_tree and save_cache given that handle call that
    engine -- once, with the goal or data passed -- and nothing else,
    render its answer, pass on what it raises, and leave the registry as it
    is. *)
Theorem session_round_trip o args r p r' t o' args' :
  call_tool_body o "start_driver" args r = (Ret p, r', t) →
  args' !! "driver_id" = Some (VStr (o_uuid4 o)) →
  ∃ al,
    o_alumni o = Ret al ∧
    (∀ goal,
       args' !! "goal" = Some goal →
       call_tool_body o' "do" args' r' =
         (match o_al_do o' with
          | Ret _ => Ret (text_payload ("Successfully executed: " +:+ py_str goal))
          | Raise e => Raise e
          end, r', [EAlDo al goal])) ∧
    (∀ data,
       args' !! "data" = Some data →
       call_tool_body o' "get" args' r' =
         (match o_al_get o' with
          | Ret result => Ret (text_payload ("Extracted data: " +:+ result))
          | Raise e => Raise e
          end, r', [EAlGet al data (args_get args' "vision" (VBool false))])) ∧
    call_tool_body o' "get_accessibility_tree" args' r' =
      (match o_accessibility_tree o' with
       | Ret tree => Ret (text_payload ("Accessibility Tree:" +:+ nl +:+ tree))
       | Raise e => Raise e
       end, r', [EAccessibilityTree al]) ∧
    call_tool_body o' "save_cache" args' r' =
      (match o_cache_save o' with
       | Ret _ =>
           Ret (text_payload ("Cache saved successfully for driver " +:+ o_uuid4 o))
       | Raise e => Raise e
       end, r', [ECacheSave al]).
Proof.
  intros H Hd. rewrite body_start_driver in H.
  pose proof (start_driver_outcome o args r) as Ho. rewrite H in Ho.
  destruct Ho as (platform & al & driver & _ & _ & Hal & -> & _).
  exists al. split; [done|].
  assert (_drivers (mkRegistry (<[o_uuid4 o := (al, driver)]> (_drivers r)) (_areas r))
            !! o_uuid4 o = Some (al, driver)) as Hr by apply lookup_insert_eq.
  autorewrite with dispatch. split_and!.
  - intros goal Hx. by eapply do_on_registered.
  - intros data Hx. by eapply get_on_registered.
  - by eapply get_accessibility_tree_on_registered.
  - by eapply save_cache_on_registered.
Qed.

Lemma session_round_trip_witness :
  call_tool_body (quiet_oracle "u2") "do"
    {["driver_id" := VStr "u1"; "goal" := VStr "add a new todo item"]}
    (serve sample_run registry_init) =
    (Ret (text_payload "Successfully executed: add a new todo item"),
     serve sample_run registry_init, [EAlDo (mkAlumni 3 4) (VStr "add a new todo item")]).
Proof.
  edestruct (session_round_trip (quiet_oracle "u1") {["platform" := VStr "chromium"]}
               registry_init
               (text_payload
                  (started_text "u1" (VStr "chromium")
                     (mkModel "anthropic" "claude-haiku-4-5-20251001")))
               (serve sample_run registry_init)
               [EChrome; EAlumni 1 (mkModel "anthropic" "claude-haiku-4-5-20251001");
                EUuid4; ESetDriver "u1"]
               (quiet_oracle "u2")
               {["driver_id" := VStr "u1"; "goal" := VStr "add a new todo item"]})
    as (al & Hal & Hdo & _); [reflexivity|reflexivity|].
  injection Hal as <-.
  exact (Hdo (VStr "add a new todo item") eq_refl).
Defined.

(** X4.  The handle a successful [area] call returns leads back to the
    area object the engine handed out in that call: on the registry it
    leaves, area_do, area_check and area_get given that handle call that
    object -- once -- and nothing else, render its answer, pass on
    whatever it raises (a failed check included), and leave the registry as
    it is. *)
Theorem area_round_trip o args r p r' t o' args' :
  call_tool_body o "area" args r = (Ret p, r', t) →
  args' !! "area_id" = Some (VStr (o_uuid4 o)) →
  ∃ area,
    o_al_area o = Ret (area_obj area) ∧
    _areas r' !! o_uuid4 o = Some area ∧
    (∀ goal,
       args' !! "goal" = Some goal →
       call_tool_body o' "area_do" args' r' =
         (match o_area_do o' with
          | Ret _ =>
              Ret (text_payload ("Successfully executed in area: " +:+ py_str goal))
          | Raise e => Raise e
          end, r', [EAreaDo area goal])) ∧
    (∀ statement,
       args' !! "statement" = Some statement →
       call_tool_body o' "area_check" args' r' =
         (match o_area_check o' with
          | Ret explanation =>
              Ret (text_payload
                     ("Check passed: " +:+ py_str statement +:+ nl +:+
                      "Explanation: " +:+ explanation))
          | Raise e => Raise e
          end, r', [EAreaCheck area statement (args_get args' "vision" (VBool false))])) ∧
    (∀ data,
       args' !! "data" = Some data →
       call_tool_body o' "area_get" args' r' =
         (match o_area_get o' with
          | Ret result => Ret (text_payload ("Extracted data: " +:+ result))
          | Raise e => Raise e
          end, r', [EAreaGet area data (args_get args' "vision" (VBool false))])).
Proof.
  intros H Hd. rewrite body_area in H.
  pose proof (area_outcome o args r) as Ho. rewrite H in Ho.
  destruct Ho as (h & al & driver & a & description & _ & _ & _ & Ha & -> & _).
  exists (mkArea a (al_driver al)). split; [done|].
  assert (_areas (mkRegistry (_drivers r)
                    (<[o_uuid4 o := mkArea a (al_driver al)]> (_areas r)))
            !! o_uuid4 o = Some (mkArea a (al_driver al))) as Hr by apply od_lookup_insert_eq.
  split; [done|]. autorewrite with dispatch. split_and!.
  - intros goal Hx. by eapply area_do_on_registered.
  - intros statement Hx. by eapply area_check_on_registered.
  - intros data Hx. by eapply area_get_on_registered.
Qed.

Lemma area_round_trip_witness :
  call_tool_body (quiet_oracle "u3") "area_get"
    {["area_id" := VStr "u2"; "data" := VStr "link texts"]} sample_session =
    (Ret (text_payload "Extracted data: 42"), sample_session,
     [EAreaGet (mkArea 5 4) (VStr "link texts") (VBool false)]).
Proof.
  edestruct (area_round_trip (quiet_oracle "u2")
               {["driver_id" := VStr "u1"; "description" := VStr "header navigation"]}
               (serve sample_run registry_init)
               (text_payload (area_created_text "u2" (VStr "header navigation")))
               sample_session
               [EAlArea (mkAlumni 3 4) (VStr "header navigation"); EUuid4; ESetArea "u2"]
               (quiet_oracle "u3")
               {["area_id" := VStr "u2"; "data" := VStr "link texts"]})
    as (area & Ha & Hl & _ & _ & Hget); [reflexivity|reflexivity|].
  assert (area = mkArea 5 4) as ->.
  { apply (inj Some). rewrite <- Hl. reflexivity. }
  exact (Hget (VStr "link texts") eq_refl).
Defined.

(** X5.  On a registered driver handle, [check] reports the outcomes of
    the engine differently: an explanation returned is rendered with
    [Result: True]; an [AssertionError], or an exception of a class derived
    from it, is caught by the handler and rendered with [Result: False];
    any other exception leaves the handler, and [call_tool] answers it with
    [Error: ] when it is an [Exception] and lets it through when it is not.
    The engine is called once in each case and the registry is unchanged. *)
Theorem check_outcomes o args r h al driver statement :
  args !! "driver_id" = Some (VStr h) →
  args !! "statement" = Some statement →
  _drivers r !! h = Some (al, driver) →
  (∀ explanation,
     o_al_check o = Ret explanation →
     call_tool o "check" args r =
       (Ret (text_payload
               ("Check finished: " +:+ py_str statement +:+ nl +:+
                "Result: True" +:+ nl +:+ "Explanation: " +:+ explanation)),
        r, [EAlCheck al statement (args_get args "vision" (VBool false))])) ∧
  (∀ e,
     o_al_check o = Raise e →
     is_AssertionError e = true →
     call_tool o "check" args r =
       (Ret (text_payload
               ("Check finished: " +:+ py_str statement +:+ nl +:+
                "Result: False" +:+ nl +:+ "Explanation: " +:+ exc_str e)),
        r, [EAlCheck al statement (args_get args "vision" (VBool false))])) ∧
  (∀ e,
     o_al_check o = Raise e →
     is_AssertionError e = false →
     call_tool o "check" args r =
       (rendered e, r, [EAlCheck al statement (args_get args "vision" (VBool false))])).
Proof.
  intros Hd Hs Hr.
  pose proof (check_on_registered o args r h al driver Hd Hr statement Hs) as Hc.
  split_and!.
  - intros explanation Ho. rewrite Ho in Hc.
    apply call_tool_Ret. by rewrite body_check.
  - intros e Ho He. rewrite Ho, He in Hc. apply call_tool_Ret. by rewrite body_check.
  - intros e Ho He. rewrite Ho, He in Hc. apply call_tool_Raise. by rewrite body_check.
Qed.

Lemma check_outcomes_witness :
  call_tool (failing_oracle "u1"
               (mkExn (Subclass AssertionError "ElementNotFound") "no login button"))
    "check" {["driver_id" := VStr "d1"; "statement" := VStr "title is Login"]}
    sample_registry =
    (Ret (text_payload
            ("Check finished: title is Login" +:+ nl +:+
             "Result: False" +:+ nl +:+ "Explanation: no login button")),
     sample_registry,
     [EAlCheck (mkAlumni 3 4) (VStr "title is Login") (VBool false)]) ∧
  call_tool (failing_oracle "u1" (mkExn (OtherError "TimeoutException") "timed out"))
    "check" {["driver_id" := VStr "d1"; "statement" := VStr "title is Login"]}
    sample_registry =
    (Ret (text_payload "Error: timed out"), sample_registry,
     [EAlCheck (mkAlumni 3 4) (VStr "title is Login") (VBool false)]).
Proof.
  split.
  - destruct (check_outcomes
                (failing_oracle "u1"
                   (mkExn (Subclass AssertionError "ElementNotFound") "no login button"))
                {["driver_id" := VStr "d1"; "statement" := VStr "title is Login"]}
                sample_registry "d1" (mkAlumni 3 4) 1 (VStr "title is Login"))
      as (_ & Hfailed & _); [reflexivity..|].
    apply (Hfailed (mkExn (Subclass AssertionError "ElementNotFound") "no login button"));
      reflexivity.
  - destruct (check_outcomes
                (failing_oracle "u1" (mkExn (OtherError "TimeoutException") "timed out"))
                {["driver_id" := VStr "d1"; "statement" := VStr "title is Login"]}
                sample_registry "d1" (mkAlumni 3 4) 1 (VStr "title is Login"))
      as (_ & _ & Hother); [reflexivity..|].
    apply (Hother (mkExn (OtherError "TimeoutException") "timed out")); reflexivity.
Defined.

(** ** The schema and what the handlers read *)

(** X6.  A handler reads nothing but the arguments its tool declares:
    two mappings that agree on the declared argument names of a catalogue
    tool get the same answer, the same registry and the same trace, so
    undeclared arguments are ignored. *)
Theorem undeclared_arguments_ignored o t args args' r :
  t ∈ list_tools →
  (∀ k, k ∈ declared t → args !! k = args' !! k) →
  call_tool o (name t) args r = call_tool o (name t) args' r.
Proof.
  intros Ht H. unfold call_tool. f_equal.
  catalogue_cases Ht; cbn [name]; autorewrite with dispatch; munfold;
    unfold args_get;
    repeat match goal with
           | |- context [args !! ?k] => rewrite (H k) by (cbn; in_list)
           end;
    reflexivity.
Qed.

Lemma undeclared_arguments_ignored_witness :
  call_tool (quiet_oracle "u1") "area_check"
    {["area_id" := VStr "a1"; "statement" := VStr "ok"; "timeout" := VStr "5"]}
    sample_registry =
  call_tool (quiet_oracle "u1") "area_check"
    {["area_id" := VStr "a1"; "statement" := VStr "ok"]} sample_registry.
Proof.
  apply (undeclared_arguments_ignored (quiet_oracle "u1") tool_area_check).
  - unfold list_tools, tool_area_check. in_list.
  - intros k Hk. cbv [declared tool_area_check properties inputSchema fmap list_fmap
                       prop_name] in Hk.
    apply elem_of_cons in Hk as [->|Hk]; [reflexivity|].
    apply elem_of_cons in Hk as [->|Hk]; [reflexivity|].
    apply elem_of_cons in Hk as [->|Hk]; [reflexivity|].
    by apply elem_of_nil in Hk.
Defined.

Lemma first_missing_None req (args : arguments) :
  first_missing req args = None → ∀ k, k ∈ req → is_Some (args !! k).
Proof.
  unfold first_missing. intros Hn k Hk.
  apply list_elem_of_In in Hk.
  pose proof (List.find_none _ _ Hn k Hk) as Hb. simpl in Hb.
  apply bool_decide_eq_false in Hb. by apply not_eq_None_Some.
Qed.

(** Case analysis that keeps the two reads of a dictionary entry together. *)
Ltac case_lookup :=
  match goal with
  | |- context [_drivers ?r !! ?s] => destruct (_drivers r !! s) as [[? ?]|] eqn:?
  | |- context [_areas ?r !! ?s] => destruct (_areas r !! s) eqn:?
  end.

Ltac never_key_error Hreq :=
  repeat match goal with
         | |- context [?args !! ?k] =>
             is_var args;
             let v := fresh "v" in
             let Hv := fresh "Hv" in
             destruct (Hreq k) as [v Hv]; [in_list|]; rewrite Hv
         end.

Lemma required_present_no_key_error o t args r k :
  t ∈ list_tools →
  has_required t args →
  call_tool_body o (name t) args r ≠ (Raise (key_error (VStr k)), r, []).
Proof.
  intros Ht Hreq. unfold has_required in Hreq.
  catalogue_cases Ht; cbn [name required inputSchema] in *;
    autorewrite with dispatch; munfold; unfold key_error, args_get;
    never_key_error Hreq; clear Hreq;
    repeat (simpl; first [case_lookup | case_inner]); discriminate.
Qed.

(** X7.  The required list of a tool's schema is exactly what its handler
    demands: the call fails on a missing key, before anything else has
    happened, if and only if some required argument is absent.  With all
    required arguments present the optional ones ([url], [vision]) may be
    left out. *)
Theorem required_arguments_suffice o t args r :
  t ∈ list_tools →
  has_required t args ↔
  ∀ k, call_tool_body o (name t) args r ≠ (Raise (key_error (VStr k)), r, []).
Proof.
  intros Ht. split.
  - intros Hreq k. by apply required_present_no_key_error.
  - intros Hne.
    destruct (first_missing (required (inputSchema t)) args) as [k|] eqn:Hk.
    + exfalso. apply (Hne k). by apply first_missing_raises.
    + exact (first_missing_None _ _ Hk).
Qed.

Lemma required_arguments_suffice_witness :
  call_tool_body (quiet_oracle "u1") "area_check"
    {["area_id" := VStr "a1"; "statement" := VStr "ok"]} sample_registry ≠
    (Raise (key_error (VStr "vision")), sample_registry, []).
Proof.
  apply (proj1 (required_arguments_suffice (quiet_oracle "u1") tool_area_check
                  {["area_id" := VStr "a1"; "statement" := VStr "ok"]} sample_registry
                  ltac:(unfold list_tools, tool_area_check; in_list))).
  intros k Hk. cbv [tool_area_check required inputSchema] in Hk.
  apply elem_of_cons in Hk as [->|Hk]; [vm_compute; eauto|].
  apply elem_of_cons in Hk as [->|Hk]; [vm_compute; eauto|].
  by apply elem_of_nil in Hk.
Defined.

(** X15.  When [call_tool] is entered with a mapping that lacks a
    required argument of a catalogue tool, it passes the mapping on as it
    is, and the handler of the tool raises the [KeyError] of the first
    missing field of the required list when it reads its arguments, before
    any lookup in the registry and any call on the driver or the engine:
    the trace is empty and the registry unchanged.  [call_tool] answers the
    error text made of that field between quotes. *)
Theorem missing_argument o t args r k :
  t ∈ list_tools →
  first_missing (required (inputSchema t)) args = Some k →
  ∃ handler,
    handler_of (name t) = Some handler ∧
    call_tool_body o (name t) args = handler o args ∧
    handler o args r = (Raise (key_error (VStr k)), r, []) ∧
    call_tool o (name t) args r = (Ret (text_payload ("Error: '" +:+ k +:+ "'")), r, []).
Proof.
  intros Ht Hk. pose proof (first_missing_raises o t args r k Ht Hk) as H.
  destruct (handler_of_catalogue t Ht) as [handler Hh]. exists handler.
  pose proof (call_tool_body_handler_of o (name t) args) as Hb. rewrite Hh in Hb.
  split_and!; [done|done|by rewrite <- Hb|].
  rewrite (call_tool_Raise _ _ _ _ _ _ _ H). reflexivity.
Qed.

Lemma missing_argument_witness :
  _area_check (quiet_oracle "u1") {["area_id" := VStr "a1"]} sample_registry =
    (Raise (key_error (VStr "statement")), sample_registry, []) ∧
  call_tool (quiet_oracle "u1") "area_check" {["area_id" := VStr "a1"]} sample_registry =
    (Ret (text_payload "Error: 'statement'"), sample_registry, []).
Proof.
  destruct (missing_argument (quiet_oracle "u1") tool_area_check
              {["area_id" := VStr "a1"]} sample_registry "statement")
    as (handler & Hh & _ & Hraise & Hcall).
  - unfold list_tools, tool_area_check. in_list.
  - vm_compute. reflexivity.
  - split; [|exact Hcall].
    change (handler_of "area_check") with (Some _area_check) in Hh.
    injection Hh as <-. exact Hraise.
Defined.

(** X8.  The tools that declare [vision] are check, get, area_check and
    area_get; each declares it as an optional boolean with default
    [False], and each handler behaves as the schema advertises: a call
    without [vision] is the call with [vision] set to [False], and on a
    registered handle the engine is passed the value given, or [False]
    when the argument is absent. *)
Theorem vision_default_agrees o args r :
  (∀ t, t ∈ list_tools → "vision" ∈ declared t ↔ name t ∈ vision_tools) ∧
  (∀ t p,
     t ∈ list_tools → p ∈ properties (inputSchema t) → prop_name p = "vision" →
     prop_type p = "boolean" ∧ prop_default p = Some (VBool false) ∧
     "vision" ∉ required (inputSchema t)) ∧
  (∀ nm,
     nm ∈ vision_tools →
     args !! "vision" = None →
     call_tool o nm args r = call_tool o nm (<["vision" := VBool false]> args) r) ∧
  (∀ h al driver statement,
     args !! "driver_id" = Some (VStr h) → _drivers r !! h = Some (al, driver) →
     args !! "statement" = Some statement →
     (call_tool o "check" args r).2 =
       [EAlCheck al statement (default (VBool false) (args !! "vision"))]) ∧
  (∀ h al driver data,
     args !! "driver_id" = Some (VStr h) → _drivers r !! h = Some (al, driver) →
     args !! "data" = Some data →
     (call_tool o "get" args r).2 =
       [EAlGet al data (default (VBool false) (args !! "vision"))]) ∧
  (∀ a area statement,
     args !! "area_id" = Some (VStr a) → _areas r !! a = Some area →
     args !! "statement" = Some statement →
     (call_tool o "area_check" args r).2 =
       [EAreaCheck area statement (default (VBool false) (args !! "vision"))]) ∧
  (∀ a area data,
     args !! "area_id" = Some (VStr a) → _areas r !! a = Some area →
     args !! "data" = Some data →
     (call_tool o "area_get" args r).2 =
       [EAreaGet area data (default (VBool false) (args !! "vision"))]).
Proof.
  assert (args_get args "vision" (VBool false) = default (VBool false) (args !! "vision"))
    as Hv by (unfold args_get; by destruct (args !! "vision")).
  split_and!.
  - intros t Ht. catalogue_cases Ht; cbn; split; intros H;
      first [by in_list | exfalso; not_in_list H].
  - intros t p Ht Hp Hn.
    catalogue_cases Ht; cbn in Hp;
      repeat (apply elem_of_cons in Hp as [->|Hp]; [try discriminate Hn|]);
      try (by apply elem_of_nil in Hp);
      (split; [reflexivity|split; [reflexivity|intros H; cbn in H; not_in_list H]]).
  - intros nm Hnm Hn. unfold call_tool. f_equal. unfold vision_tools in Hnm.
    repeat (apply elem_of_cons in Hnm as [->|Hnm]);
      [..|by apply elem_of_nil in Hnm];
      autorewrite with dispatch; munfold; unfold args_get;
      rewrite lookup_insert_eq, !lookup_insert_ne, Hn by done; reflexivity.
  - intros h al driver statement Hd Hr Hs. rewrite call_tool_trace, body_check.
    rewrite (check_on_registered o args r h al driver Hd Hr statement Hs).
    simpl. by rewrite Hv.
  - intros h al driver data Hd Hr Hx. rewrite call_tool_trace, body_get.
    rewrite (get_on_registered o args r h al driver Hd Hr data Hx).
    simpl. by rewrite Hv.
  - intros a area statement Hd Hr Hs. rewrite call_tool_trace, body_area_check.
    rewrite (area_check_on_registered o args r a area Hd Hr statement Hs).
    simpl. by rewrite Hv.
  - intros a area data Hd Hr Hx. rewrite call_tool_trace, body_area_get.
    rewrite (area_get_on_registered o args r a area Hd Hr data Hx).
    simpl. by rewrite Hv.
Qed.

Lemma vision_default_agrees_witness :
  (call_tool (quiet_oracle "u1") "check"
     {["driver_id" := VStr "d1"; "statement" := VStr "ok"]} sample_registry).2 =
    [EAlCheck (mkAlumni 3 4) (VStr "ok") (VBool false)] ∧
  call_tool (quiet_oracle "u1") "area_get"
    {["area_id" := VStr "a1"; "data" := VStr "link texts"]} sample_registry =
  call_tool (quiet_oracle "u1") "area_get"
    (<["vision" := VBool false]> {["area_id" := VStr "a1"; "data" := VStr "link texts"]})
    sample_registry.
Proof.
  split.
  - destruct (vision_default_agrees (quiet_oracle "u1")
                {["driver_id" := VStr "d1"; "statement" := VStr "ok"]} sample_registry)
      as (_ & _ & _ & Hcheck & _).
    apply (Hcheck "d1" (mkAlumni 3 4) 1 (VStr "ok")); reflexivity.
  - destruct (vision_default_agrees (quiet_oracle "u1")
                {["area_id" := VStr "a1"; "data" := VStr "link texts"]} sample_registry)
      as (_ & _ & Hsame & _).
    apply (Hsame "area_get"); [unfold vision_tools; in_list|reflexivity].
Defined.

(** ** Teardown and construction *)

(** X9.  A [quit_driver] that fails leaves the session in place: when
    [al.quit()] raises, the raw driver is not closed; when [driver.quit()]
    raises, the engine has been released already; in both cases nothing is
    deleted, the registry is unchanged, and a later [quit_driver] on the
    same handle whose external calls return completes and removes the
    session as a first one would have, its areas in the order in which
    they were created. *)
Theorem quit_failure_keeps_session o args r h al driver :
  args !! "driver_id" = Some (VStr h) →
  _drivers r !! h = Some (al, driver) →
  (∀ e,
     o_al_quit o = Raise e →
     call_tool o "quit_driver" args r = (rendered e, r, [EAlQuit al])) ∧
  (∀ e,
     o_al_quit o = Ret tt →
     o_driver_quit o = Raise e →
     call_tool o "quit_driver" args r = (rendered e, r, [EAlQuit al; EDriverQuit driver])) ∧
  (∀ e r' t o2,
     call_tool_body o "quit_driver" args r = (Raise e, r', t) →
     o_al_quit o2 = Ret tt →
     o_driver_quit o2 = Ret tt →
     call_tool o2 "quit_driver" args r' =
       (Ret (text_payload ("Driver " +:+ h +:+ " closed successfully")),
        registry_after_quit r h al, quit_trace r h al driver)).
Proof.
  intros Hd Hr. split_and!.
  - intros e Hq. apply call_tool_Raise. rewrite body_quit_driver.
    by apply (quit_driver_interrupted o args r h al driver e).
  - intros e Hq1 Hq2. apply call_tool_Raise. rewrite body_quit_driver.
    by apply (quit_driver_interrupted_late o args r h al driver e).
  - intros e r' t o2 H Hq1 Hq2. rewrite body_quit_driver in H.
    pose proof (quit_driver_raise_is_clean o args r) as Hc. rewrite H in Hc.
    destruct Hc as [-> _].
    apply call_tool_Ret. rewrite body_quit_driver. by apply quit_driver_completes.
Qed.

Lemma quit_failure_keeps_session_witness :
  call_tool (failing_oracle "u1" (mkExn (OtherError "WebDriverException") "session gone"))
    "quit_driver" {["driver_id" := VStr "d1"]} sample_registry =
    (Ret (text_payload "Error: session gone"), sample_registry, [EAlQuit (mkAlumni 3 4)]) ∧
  call_tool (quiet_oracle "u2") "quit_driver" {["driver_id" := VStr "d1"]}
    (mkRegistry {["d1" := (mkAlumni 3 4, 1)]}
       (<["a1" := mkArea 6 4]> (<["a3" := mkArea 5 4]> ∅))) =
    (Ret (text_payload "Driver d1 closed successfully"),
     mkRegistry ∅ ∅,
     [EAlQuit (mkAlumni 3 4); EDriverQuit 1; EDelArea "a3"; EDelArea "a1";
      EDelDriver "d1"]).
Proof.
  split.
  - destruct (quit_failure_keeps_session
                (failing_oracle "u1" (mkExn (OtherError "WebDriverException") "session gone"))
                {["driver_id" := VStr "d1"]} sample_registry "d1" (mkAlumni 3 4) 1)
      as (Hal & _); [reflexivity..|].
    apply (Hal (mkExn (OtherError "WebDriverException") "session gone")). reflexivity.
  - destruct (quit_failure_keeps_session
                (failing_oracle "u1" (mkExn (OtherError "WebDriverException") "session gone"))
                {["driver_id" := VStr "d1"]}
                (mkRegistry {["d1" := (mkAlumni 3 4, 1)]}
                   (<["a1" := mkArea 6 4]> (<["a3" := mkArea 5 4]> ∅)))
                "d1" (mkAlumni 3 4) 1)
      as (_ & _ & Hretry); [reflexivity..|].
    apply (Hretry (mkExn (OtherError "WebDriverException") "session gone")
             (mkRegistry {["d1" := (mkAlumni 3 4, 1)]}
                (<["a1" := mkArea 6 4]> (<["a3" := mkArea 5 4]> ∅)))
             [EAlQuit (mkAlumni 3 4)] (quiet_oracle "u2")); reflexivity.
Defined.

Ltac all_false :=
  repeat first [apply Forall_nil_2 | apply Forall_cons_2; [reflexivity|]].

(** X10.  Only [quit_driver] releases an engine or closes a raw driver:
    a call of any other tool name, whatever its arguments and outcome,
    performs neither [al.quit()] nor [driver.quit()].  In particular a
    [start_driver] that fails after the raw driver was built leaves that
    driver running. *)
Theorem only_quit_driver_closes o nm args r :
  nm ≠ "quit_driver" →
  Forall (λ ev, closing_event ev = false) (call_tool o nm args r).2.
Proof.
  intros Hnm. rewrite call_tool_trace. unfold call_tool_body.
  repeat case_bool_decide; try done; munfold; outcome_cases; all_false.
Qed.

Lemma only_quit_driver_closes_witness :
  Forall (λ ev, closing_event ev = false)
    (call_tool (failing_oracle "u1" (mkExn (OtherError "WebDriverException") "no page"))
       "start_driver" {["platform" := VStr "chromium"]} sample_registry).2.
Proof.
  apply (only_quit_driver_closes
           (failing_oracle "u1" (mkExn (OtherError "WebDriverException") "no page"))
           "start_driver").
  discriminate.
Defined.

(** X11.  [start_driver] for chromium navigates exactly when [url] is a
    non-empty value: with [url] absent, [None] or the empty string the
    browser is built and the engine bound without any [driver.get]; with
    a non-empty [url] one [driver.get(url)] follows the construction
    and precedes the engine.  When that navigation raises, the handler
    stops: no engine is built, no identifier is drawn, nothing is
    registered. *)
Theorem chromium_navigation o args r driver :
  args !! "platform" = Some (VStr "chromium") →
  o_chrome o = Ret driver →
  (py_truthy (args_get args "url" VNone) = false →
   (call_tool_body o "start_driver" args r).2 =
     [EChrome; EAlumni driver (o_model_current o)] ++
     match o_alumni o with
     | Ret _ => [EUuid4; ESetDriver (o_uuid4 o)]
     | Raise _ => []
     end) ∧
  (py_truthy (args_get args "url" VNone) = true →
   o_driver_get o = Ret tt →
   (call_tool_body o "start_driver" args r).2 =
     [EChrome; EDriverGet driver (args_get args "url" VNone);
      EAlumni driver (o_model_current o)] ++
     match o_alumni o with
     | Ret _ => [EUuid4; ESetDriver (o_uuid4 o)]
     | Raise _ => []
     end) ∧
  (∀ e,
     py_truthy (args_get args "url" VNone) = true →
     o_driver_get o = Raise e →
     call_tool_body o "start_driver" args r =
       (Raise e, r, [EChrome; EDriverGet driver (args_get args "url" VNone)])).
Proof.
  intros Hp Hc. rewrite body_start_driver. split_and!.
  - intros Hu. munfold. rewrite Hp. simpl. rewrite Hc, Hu. simpl.
    destruct (o_alumni o); reflexivity.
  - intros Hu Hg. munfold. rewrite Hp. simpl. rewrite Hc, Hu, Hg. simpl.
    destruct (o_alumni o); reflexivity.
  - intros e Hu Hg. munfold. rewrite Hp. simpl. rewrite Hc, Hu, Hg. reflexivity.
Qed.

Lemma chromium_navigation_witness :
  (call_tool_body (quiet_oracle "u1") "start_driver"
     {["platform" := VStr "chromium"; "url" := VStr EmptyString]} registry_init).2 =
    [EChrome; EAlumni 1 (mkModel "anthropic" "claude-haiku-4-5-20251001");
     EUuid4; ESetDriver "u1"] ∧
  (call_tool_body (quiet_oracle "u1") "start_driver"
     {["platform" := VStr "chromium"; "url" := VStr "https://todomvc.com"]}
     registry_init).2 =
    [EChrome; EDriverGet 1 (VStr "https://todomvc.com");
     EAlumni 1 (mkModel "anthropic" "claude-haiku-4-5-20251001");
     EUuid4; ESetDriver "u1"].
Proof.
  split.
  - destruct (chromium_navigation (quiet_oracle "u1")
                {["platform" := VStr "chromium"; "url" := VStr EmptyString]}
                registry_init 1) as (Hno & _); [reflexivity..|].
    apply Hno. reflexivity.
  - destruct (chromium_navigation (quiet_oracle "u1")
                {["platform" := VStr "chromium"; "url" := VStr "https://todomvc.com"]}
                registry_init 1) as (_ & Hyes & _); [reflexivity..|].
    apply Hyes; reflexivity.
Defined.

(** *** The iOS application path *)

Lemma str_remove_from_cons old skip c s :
  str_remove_from old skip (String c s) =
    match skip with
    | S k => str_remove_from old k s
    | O =>
        if String.prefix old (String c s)
        then str_remove_from old (String.length old - 1) s
        else String c (str_remove_from old 0 s)
    end.
Proof. reflexivity. Qed.

(** [replace] leaves a string without occurrence as it is. *)
Lemma str_remove_no_occurrence old s :
  no_occurrence old s = true → str_remove old s = s.
Proof.
  unfold str_remove. induction s as [|c s IH]; [done|].
  cbn [no_occurrence]. intros [Hp Hs]%andb_true_iff. apply negb_true_iff in Hp.
  rewrite str_remove_from_cons, Hp. f_equal. by apply IH.
Qed.

(** [replace] drops a leading [file://]. *)
Lemma str_remove_file_prefix s :
  str_remove "file://" ("file://" +:+ s) = str_remove "file://" s.
Proof.
  unfold str_remove.
  change ("file://" +:+ s) with
    (String "f" (String "i" (String "l" (String "e"
       (String ":" (String "/" (String "/" s))))))).
  rewrite str_remove_from_cons.
  assert (String.prefix "file://" (String "f" (String "i" (String "l" (String "e"
             (String ":" (String "/" (String "/" s))))))) = true) as ->.
  { vm_compute. by destruct s. }
  change (String.length "file://" - 1) with 6.
  do 6 rewrite str_remove_from_cons. reflexivity.
Qed.

(** [replace] never makes a string longer. *)
Lemma str_remove_from_length old skip s :
  (String.length (str_remove_from old skip s) ≤ String.length s)%nat.
Proof.
  revert skip. induction s as [|c s IH]; intros skip; [done|].
  rewrite str_remove_from_cons. cbn [String.length]. destruct skip as [|k].
  - destruct (String.prefix old (String c s)).
    + specialize (IH (String.length old - 1)). lia.
    + cbn [String.length]. specialize (IH 0). lia.
  - specialize (IH k). lia.
Qed.

(** X12.  [start_driver] for ios chooses what to launch from [url]: with
    [url] absent, [None] or empty it launches Safari (bundle id
    [com.apple.mobilesafari], no app); with a string it launches that
    string as the app path with every [file://] removed, so that
    [file://<path>] and [<path>] launch the same app when [path] holds no
    [file://]; the path passed is never longer than [url].  Device name,
    platform version and Appium server come from the environment, with
    [iPhone 16], [18.4] and [http://localhost:4723] as fallbacks.  With
    [url] the boolean [True] the call fails on [url.replace] before
    anything is constructed. *)
Theorem ios_application o args r :
  args !! "platform" = Some (VStr "ios") →
  (py_truthy (args_get args "url" VNone) = false →
   ∃ rest,
     (call_tool o "start_driver" args r).2 =
       EAppium (appium_client_config o)
         (xcuitest_options o None (Some "com.apple.mobilesafari")) :: rest) ∧
  (∀ s,
     args_get args "url" VNone = VStr s →
     s ≠ EmptyString →
     ∃ rest,
       (call_tool o "start_driver" args r).2 =
         EAppium (appium_client_config o)
           (xcuitest_options o (Some (str_remove "file://" s)) None) :: rest ∧
       (String.length (str_remove "file://" s) ≤ String.length s)%nat) ∧
  (∀ path,
     no_occurrence "file://" path = true →
     str_remove "file://" ("file://" +:+ path) = path ∧
     str_remove "file://" path = path) ∧
  (args_get args "url" VNone = VBool true →
   call_tool o "start_driver" args r =
     (Ret (text_payload "Error: 'bool' object has no attribute 'replace'"), r, [])) ∧
  (o_getenv o "ALUMNIUM_IOS_DEVICE_NAME" = None →
   o_getenv o "ALUMNIUM_IOS_PLATFORM_VERSION" = None →
   o_getenv o "ALUMNIUM_APPIUM_SERVER" = None →
   ∀ app bundle_id,
     device_name (xcuitest_options o app bundle_id) = "iPhone 16" ∧
     platform_version (xcuitest_options o app bundle_id) = "18.4" ∧
     remote_server_addr (appium_client_config o) = "http://localhost:4723").
Proof.
  intros Hp. rewrite !call_tool_trace, !body_start_driver. split_and!.
  - intros Hu. munfold. rewrite Hp. simpl. rewrite Hu. simpl.
    destruct (o_appium o); simpl; [destruct (o_alumni o); simpl|]; eauto.
  - intros s Hs Hne. munfold. rewrite Hp. simpl. rewrite Hs.
    destruct s as [|c s]; [done|]. cbn -[str_remove].
    destruct (o_appium o); cbn -[str_remove];
      [destruct (o_alumni o); cbn -[str_remove]|];
      (eexists; split; [reflexivity|apply str_remove_from_length]).
  - intros path Hno. rewrite str_remove_file_prefix.
    split; by apply str_remove_no_occurrence.
  - intros Hu.
    etrans; [apply call_tool_Raise; rewrite body_start_driver;
             munfold; rewrite Hp; simpl; rewrite Hu; reflexivity|reflexivity].
  - intros H1 H2 H3 app bundle_id. unfold xcuitest_options, appium_client_config, getenv.
    simpl. by rewrite H1, H2, H3.
Qed.

Lemma ios_application_witness :
  ∃ rest,
    (call_tool (quiet_oracle "u1") "start_driver"
       {["platform" := VStr "ios"; "url" := VStr "file:///tmp/Todo.app"]}
       registry_init).2 =
      EAppium (appium_client_config (quiet_oracle "u1"))
        (xcuitest_options (quiet_oracle "u1") (Some "/tmp/Todo.app") None) :: rest.
Proof.
  destruct (ios_application (quiet_oracle "u1")
              {["platform" := VStr "ios"; "url" := VStr "file:///tmp/Todo.app"]}
              registry_init) as (_ & Hpath & _); [reflexivity|].
  destruct (Hpath "file:///tmp/Todo.app") as (rest & Hrest & _);
    [reflexivity|discriminate|].
  exists rest. exact Hrest.
Defined.

(** ** [main] *)

(** X13.  After [main] has prepared the environment, [ALUMNIUM_MODEL] is
    always set: a value already present is kept as it is -- the empty
    string too, the test being membership and not truth -- and only when
    the variable is absent is it set to
    [anthropic/claude-haiku-4-5-20251001]; no other variable is touched
    and preparing twice changes nothing more. *)
Theorem main_model_default (environ : gmap string string) :
  is_Some (main environ !! "ALUMNIUM_MODEL") ∧
  (∀ v, environ !! "ALUMNIUM_MODEL" = Some v → main environ = environ) ∧
  (environ !! "ALUMNIUM_MODEL" = None →
   main environ !! "ALUMNIUM_MODEL" = Some "anthropic/claude-haiku-4-5-20251001") ∧
  (∀ k, k ≠ "ALUMNIUM_MODEL" → main environ !! k = environ !! k) ∧
  main (main environ) = main environ.
Proof.
  assert (∀ e : gmap string string,
            is_Some (e !! "ALUMNIUM_MODEL") → main e = e) as Hkeep.
  { intros e He. unfold main. by rewrite bool_decide_eq_true_2. }
  assert (is_Some (main environ !! "ALUMNIUM_MODEL")) as Hset.
  { unfold main. case_bool_decide as H; [done|]. rewrite lookup_insert_eq. eauto. }
  split_and!.
  - done.
  - intros v Hv. apply Hkeep. eauto.
  - intros Hn. unfold main. rewrite bool_decide_eq_false_2; [apply lookup_insert_eq|].
    rewrite Hn. by intros [? ?].
  - intros k Hk. unfold main. case_bool_decide; [done|]. by rewrite lookup_insert_ne.
  - by apply Hkeep.
Qed.

Lemma main_model_default_witness :
  main {["ALUMNIUM_MODEL" := EmptyString]} = {["ALUMNIUM_MODEL" := EmptyString]} ∧
  main ∅ !! "ALUMNIUM_MODEL" = Some "anthropic/claude-haiku-4-5-20251001".
Proof.
  split.
  - destruct (main_model_default {["ALUMNIUM_MODEL" := EmptyString]}) as (_ & Hkeep & _).
    apply (Hkeep EmptyString). reflexivity.
  - destruct (main_model_default ∅) as (_ & _ & Hset & _).
    apply Hset. reflexivity.
Defined.

(** ** Sessions side by side *)

(** X14.  Quitting one session leaves the others usable: after a
    [quit_driver] on [h] that completes, another registered handle [h']
    still resolves to its own engine, which a [do] on [h'] reaches, and an
    area survives exactly when its [driver] is not the [driver] of the
    engine that was quit. *)
Theorem quit_leaves_other_sessions o args r h al driver h' al' driver' o' args' :
  args !! "driver_id" = Some (VStr h) →
  _drivers r !! h = Some (al, driver) →
  o_al_quit o = Ret tt →
  o_driver_quit o = Ret tt →
  h' ≠ h →
  _drivers r !! h' = Some (al', driver') →
  args' !! "driver_id" = Some (VStr h') →
  (call_tool o "quit_driver" args r).1.2 = registry_after_quit r h al ∧
  _drivers (registry_after_quit r h al) !! h' = Some (al', driver') ∧
  (∀ goal,
     args' !! "goal" = Some goal →
     call_tool_body o' "do" args' (registry_after_quit r h al) =
       (match o_al_do o' with
        | Ret _ => Ret (text_payload ("Successfully executed: " +:+ py_str goal))
        | Raise e => Raise e
        end, registry_after_quit r h al, [EAlDo al' goal])) ∧
  (∀ a area,
     _areas r !! a = Some area →
     _areas (registry_after_quit r h al) !! a =
       if bool_decide (area_driver area = al_driver al) then None else Some area).
Proof.
  intros Hd Hr Hq1 Hq2 Hne Hr' Hd'.
  assert (_drivers (registry_after_quit r h al) !! h' = Some (al', driver')) as Hl.
  { simpl. by rewrite lookup_delete_ne. }
  split_and!.
  - rewrite call_tool_registry, body_quit_driver.
    by rewrite (quit_driver_completes o args r h al driver).
  - done.
  - intros goal Hg. rewrite body_do. by eapply do_on_registered.
  - intros a area Ha. simpl. case_bool_decide as Hp.
    + apply od_lookup_filter_None. right. intros area' Ha' Hn. simpl in Hn.
      rewrite Ha in Ha'. by simplify_eq.
    + by apply od_lookup_filter_Some.
Qed.

Lemma quit_leaves_other_sessions_witness :
  _drivers (registry_after_quit
              (mkRegistry {["d1" := (mkAlumni 3 4, 1); "d2" := (mkAlumni 7 8, 2)]} ∅)
              "d1" (mkAlumni 3 4)) !! "d2" = Some (mkAlumni 7 8, 2).
Proof.
  destruct (quit_leaves_other_sessions (quiet_oracle "u1") {["driver_id" := VStr "d1"]}
              (mkRegistry {["d1" := (mkAlumni 3 4, 1); "d2" := (mkAlumni 7 8, 2)]} ∅)
              "d1" (mkAlumni 3 4) 1 "d2" (mkAlumni 7 8) 2
              (quiet_oracle "u2") {["driver_id" := VStr "d2"]})
    as (_ & Hother & _); [reflexivity..|discriminate|reflexivity|reflexivity|].
  exact Hother.
Defined.
